(** * OpenDrop command line: discovery catalogue and receiver resolution

    A shallow embedding of [src/opendrop/cli.py]: the per-peer discovery
    probe [AirDropCli._send_discover], the shared catalogue it appends to,
    and the three-tier receiver lookup [AirDropCli._get_receiver_info].

    Conventions of the embedding.
    - A Python [str] or [bytes] value is a [string]; each [ascii] stands for
      one code point (or byte) in the range 0..255, so the model covers the
      tokens whose code points stay in that range.
    - A Python [int] is a [Z].
    - An uncaught exception is an explicit [Raise] result.
    - Log lines and network calls are recorded, in order, in a trace. *)

From Stdlib Require Import ZArith NArith QArith Bool List Lia.
From Stdlib Require Import Strings.String Strings.Ascii.
From Stdlib Require Import Numbers.DecimalString Numbers.DecimalN
  Numbers.DecimalZ Numbers.DecimalPos.
From stdpp Require Import gmap strings.

Import ListNotations.
Local Open Scope string_scope.
Local Open Scope Z_scope.
Local Open Scope list_scope.

(** ** Exceptions and results *)

Inductive exn : Type :=
| ValueError
| IndexError
| KeyError
| TypeError
| TimeoutError
| OtherError (what : string).

Inductive outcome (A : Type) : Type :=
| Return (a : A)
| Raise (e : exn).
Arguments Return {A} a.
Arguments Raise {A} e.

(** ** The built-ins [int], [str], [len] and list subscription *)

Module PyInt.

(** [Py_ISSPACE]: the white space [PyLong_FromString] skips. *)
Definition Py_ISSPACE (c : ascii) : bool :=
  let n := nat_of_ascii c in
  ((9 <=? n)%nat && (n <=? 13)%nat) || (n =? 32)%nat.

(** [Py_UNICODE_ISSPACE], restricted to code points below 256. *)
Definition Py_UNICODE_ISSPACE (c : ascii) : bool :=
  let n := nat_of_ascii c in
  ((9 <=? n)%nat && (n <=? 13)%nat)
  || ((28 <=? n)%nat && (n <=? 32)%nat)
  || (n =? 133)%nat || (n =? 160)%nat.

(** Value of a decimal digit, [None] for any other character. *)
Definition digit_value (c : ascii) : option N :=
  let n := nat_of_ascii c in
  if ((48 <=? n)%nat && (n <=? 57)%nat)%bool
  then Some (N.of_nat (n - 48))
  else None.

Definition is_underscore (c : ascii) : bool := Ascii.eqb c "_"%char.

Fixpoint skip_spaces (s : string) : string :=
  match s with
  | String c r => if Py_ISSPACE c then skip_spaces r else s
  | EmptyString => s
  end.

(** The digit scan of [PyLong_FromString] in base 10: digits, with single
    underscores allowed between them.  [prev_us] tells whether the previous
    character was an underscore; the result is the value read, the number
    of digits read and the unread rest.  [None] is the error exit (two
    underscores in a row, or an underscore not followed by a digit). *)
Fixpoint scan_digits (s : string) (prev_us : bool) (ndigits : nat) (acc : N)
  : option (N * nat * string) :=
  match s with
  | EmptyString => if prev_us then None else Some (acc, ndigits, s)
  | String c r =>
      if is_underscore c then
        if prev_us then None else scan_digits r true ndigits acc
      else
        match digit_value c with
        | Some d => scan_digits r false (S ndigits) (10 * acc + d)%N
        | None => if prev_us then None else Some (acc, ndigits, s)
        end
  end.

(** The part of [PyLong_FromString] after the sign: no leading underscore,
    at least one digit, then only white space up to the end. *)
Definition digits_to_end (negative : bool) (s : string) : option Z :=
  match s with
  | String "_"%char _ => None
  | _ =>
      match scan_digits s false 0 0 with
      | Some (v, nd, rest) =>
          if (nd =? 0)%nat then None
          else match skip_spaces rest with
               | EmptyString => Some (if negative then - Z.of_N v else Z.of_N v)
               | String _ _ => None
               end
      | None => None
      end
  end.

(** [PyLong_FromString(s, base=10)] followed by the caller's check that the
    whole buffer was consumed: optional white space, optional sign, digits,
    optional white space, end.  [None] is [ValueError]. *)
Definition PyLong_FromString (s : string) : option Z :=
  match skip_spaces s with
  | String "+"%char r => digits_to_end false r
  | String "-"%char r => digits_to_end true r
  | s1 => digits_to_end false s1
  end.

(** [_PyUnicode_TransformDecimalAndSpaceToASCII] on code points below 256:
    code points below 127 are kept, a Unicode space becomes a blank, and at
    the first other character the buffer is cut after a question mark
    (below 256 the only decimal digits are the ASCII ones). *)
Fixpoint transform_to_ascii (s : string) : string :=
  match s with
  | EmptyString => EmptyString
  | String c r =>
      if (nat_of_ascii c <? 127)%nat then String c (transform_to_ascii r)
      else if Py_UNICODE_ISSPACE c then String " "%char (transform_to_ascii r)
      else String "?"%char EmptyString
  end.

(** [int(s)] for a [str].  The interpreter's optional ceiling on the number
    of digits of a literal is left out. *)
Definition int_of_str (s : string) : outcome Z :=
  match PyLong_FromString (transform_to_ascii s) with
  | Some z => Return z
  | None => Raise ValueError
  end.

(** [int(b)] for a [bytes] value: no Unicode step. *)
Definition int_of_bytes (b : string) : outcome Z :=
  match PyLong_FromString b with
  | Some z => Return z
  | None => Raise ValueError
  end.

(** [str(z)] for an [int]: the decimal digits, with a minus sign when
    negative. *)
Definition str_of_int (z : Z) : string :=
  NilZero.string_of_int (Z.to_int z).

(** [l[i]] for a list: a negative index counts from the end; [None] is
    [IndexError]. *)
Definition list_getitem {A : Type} (l : list A) (i : Z) : option A :=
  let n := Z.of_nat (List.length l) in
  let j := if i <? 0 then i + n else i in
  if (j <? 0) || (n <=? j) then None else nth_error l (Z.to_nat j).

End PyInt.

(** ** Data model *)

(** One element of the discovery report: the dictionary [node_info] built by
    [_send_discover], with its keys ["name"], ["address"], ["port"], ["id"],
    ["flags"] and ["discoverable"]. *)
Record PeerRecord : Type := {
  pr_name : option string;
  pr_address : string;
  pr_port : Z;
  pr_id : string;
  pr_flags : Z;
  pr_discoverable : bool
}.

(** The service info object handed over by the browser: [info.name],
    [info.server], [info.parsed_addresses()], [info.port] and
    [info.properties], a dictionary from bytes to bytes. *)
Record ServiceRecord : Type := {
  si_name : string;
  si_server : string;
  si_parsed_addresses : list string;
  si_port : Z;
  si_properties : gmap string string
}.

(** ** Observable events: log lines and network calls *)

Inductive level : Type := DEBUG | INFO | WARNING | ERROR.

Inductive message : Type :=
| MsgNoReport                       (* No discovery report exists, ... *)
| MsgOldReport (age : Q)            (* Old discovery report (... seconds) *)
| MsgReceiverDoesNotExist           (* Receiver does not exist (...) *)
| MsgMissingAddress (info : ServiceRecord)
                                    (* Ignoring receiver with missing address *)
| MsgServiceFound (hostname address : string) (port : Z) (identifier : string)
                                    (* AirDrop service found: ... *)
| MsgFound (index : nat) (identifier : string) (receiver_name : string)
                                    (* Found  index ..  ID ..  name .. *)
| MsgNotDiscoverable (identifier : string).
                                    (* Receiver ID .. is not discoverable *)

Inductive event : Type :=
| Log (l : level) (m : message)
| SendDiscover (address : string) (port : Z).   (* client.send_discover *)

(** ** Receiver resolution: [AirDropCli._get_receiver_info] *)

Module Resolver.
Import PyInt.

(** The attribute [self.receiver]: the token as typed by the user, or the
    integer the index tier stored over it. *)
Inductive receiver_t : Type :=
| RStr (s : string)
| RInt (z : Z).

(** [int(self.receiver)] *)
Definition py_int (r : receiver_t) : outcome Z :=
  match r with
  | RStr s => int_of_str s
  | RInt z => Return z
  end.

(** [len(self.receiver)]: an [int] has no length. *)
Definition py_len (r : receiver_t) : outcome nat :=
  match r with
  | RStr s => Return (String.length s)
  | RInt _ => Raise TypeError
  end.

(** [info["id"] == self.receiver]: a [str] never equals an [int]. *)
Definition id_eq (info : PeerRecord) (r : receiver_t) : bool :=
  match r with
  | RStr s => String.eqb (pr_id info) s
  | RInt _ => false
  end.

(** [info["name"] == self.receiver]: the name may be [None]. *)
Definition name_eq (info : PeerRecord) (r : receiver_t) : bool :=
  match pr_name info, r with
  | Some n, RStr s => String.eqb n s
  | _, _ => false
  end.

(** Result of a call: what it returned or raised, the value left in
    [self.receiver], and the lines logged. *)
Record result : Type := {
  returned : outcome (option PeerRecord);
  receiver_after : receiver_t;
  logged : list event
}.

(** Lines 360-367, tier (1).  [Return (Some info)] is the element returned
    from inside the [try] block; [Return None] means the block was left
    through one of its two handlers and the lookup goes on; any other
    exception propagates.  The assignment to [self.receiver] happens before
    the subscription, so it survives an [IndexError]. *)
Definition index_tier (receiver : receiver_t) (infos : list PeerRecord)
  : receiver_t * outcome (option PeerRecord) :=
  match py_int receiver with
  | Return z =>
      (RInt z,
       match list_getitem infos z with
       | Some info => Return (Some info)
       | None => Return None             (* except IndexError: pass *)
       end)
  | Raise ValueError => (receiver, Return None)   (* except ValueError: pass *)
  | Raise IndexError => (receiver, Return None)
  | Raise e => (receiver, Raise e)
  end.

(** Lines 360-381. *)
Definition resolve (receiver : receiver_t) (infos : list PeerRecord) : result :=
  let '(receiver, hit) := index_tier receiver infos in
  match hit with
  | Raise e => {| returned := Raise e;
                  receiver_after := receiver; logged := [] |}
  | Return (Some info) => {| returned := Return (Some info);
                             receiver_after := receiver; logged := [] |}
  | Return None =>
      (* (2) try 'id' *)
      match py_len receiver with
      | Raise e => {| returned := Raise e;
                      receiver_after := receiver; logged := [] |}
      | Return n =>
          match (if (n =? 12)%nat
                 then List.find (fun info => id_eq info receiver) infos
                 else None) with
          | Some info => {| returned := Return (Some info);
                            receiver_after := receiver; logged := [] |}
          | None =>
              (* (3) try hostname *)
              match List.find (fun info => name_eq info receiver) infos with
              | Some info => {| returned := Return (Some info);
                                receiver_after := receiver; logged := [] |}
              | None =>
                  (* (fail) *)
                  {| returned := Return None;
                     receiver_after := receiver;
                     logged := [Log ERROR MsgReceiverDoesNotExist] |}
              end
          end
      end
  end.

(** The report file at [self.config.discovery_report] and the clock.  Time
    stamps are seconds as exact rationals. *)
Record report_file : Type := {
  mtime : Q;
  infos : list PeerRecord      (* what [json.load] reads back *)
}.

Record world : Type := {
  now : Q;                               (* time.time() *)
  discovery_report : option report_file  (* [None]: no such file *)
}.

(** [age > 60] *)
Definition older_than_a_minute (age : Q) : bool := negb (Qle_bool age 60).

(** Lines 348-381. *)
Definition _get_receiver_info (receiver : receiver_t) (w : world) : result :=
  match discovery_report w with
  | None => {| returned := Return None;
               receiver_after := receiver;
               logged := [Log ERROR MsgNoReport] |}
  | Some f =>
      let age := (now w - mtime f)%Q in
      let warning :=
        if older_than_a_minute age
        then [Log WARNING (MsgOldReport age)] else [] in
      let r := resolve receiver (infos f) in
      {| returned := returned r;
         receiver_after := receiver_after r;
         logged := warning ++ logged r |}
  end.

(** The records of a report whose id is [t], in catalogue order. *)
Definition records_with_id (t : string) (R : list PeerRecord) : list PeerRecord :=
  List.filter (fun info => String.eqb (pr_id info) t) R.

(** The outcome the specification calls ReceiverNotFound: the error line is
    logged and [None] is returned. *)
Definition receiver_not_found (r : result) : Prop :=
  returned r = Return None /\ logged r = [Log ERROR MsgReceiverDoesNotExist].

End Resolver.

(** ** The peer probe: [AirDropCli._send_discover] *)

Module Probe.
Import PyInt.

(** [s.split(".")[0]]: the part of [s] before its first dot. *)
Fixpoint split_dot_head (s : string) : string :=
  match s with
  | EmptyString => EmptyString
  | String c r =>
      if Ascii.eqb c "."%char then EmptyString
      else String c (split_dot_head r)
  end.

(** The local variables of [_send_discover] once line 261 is reached. *)
Record locals : Type := {
  address : string;
  identifier : string;
  hostname : string;
  port : Z;
  flags : Z;
  receiver_name : option string
}.

(** [discoverable = receiver_name is not None] *)
Definition discoverable (l : locals) : bool :=
  match receiver_name l with
  | Some _ => true
  | None => false
  end.

(** Lines 264-271. *)
Definition node_info (l : locals) : PeerRecord :=
  {| pr_name := receiver_name l;
     pr_address := address l;
     pr_port := port l;
     pr_id := identifier l;
     pr_flags := flags l;
     pr_discoverable := discoverable l |}.

(** Lines 274-277. *)
Definition report_line (l : locals) (index : nat) : event :=
  match receiver_name l with
  | Some n => Log INFO (MsgFound index (identifier l) n)
  | None => Log DEBUG (MsgNotDiscoverable (identifier l))
  end.

Section WithEnvironment.

(** [AirDropReceiverFlags.SUPPORTS_DISCOVER_MAYBE], declared in
    [opendrop/config.py]. *)
Variable SUPPORTS_DISCOVER_MAYBE : Z.

(** The protocol client, [AirDropClient((address, port)).send_discover]:
    the receiver name in the answer ([None] when the answer has none), or
    the exception the call ends with. *)
Variable send_discover : string -> Z -> outcome (option string).

(** Lines 246-250. *)
Definition read_flags (info : ServiceRecord) : outcome Z :=
  match si_properties info !! "flags" with
  | Some b => int_of_bytes b
  | None => Return SUPPORTS_DISCOVER_MAYBE      (* except KeyError *)
  end.

(** Lines 234-261, which touch no shared state: the events emitted, and
    either the locals ([Return (Some l)]), the early [return] of line 238
    ([Return None]), or an exception that ends the thread. *)
Definition probe (info : ServiceRecord) : list event * outcome (option locals) :=
  match si_parsed_addresses info with
  | [] => ([Log WARNING (MsgMissingAddress info)], Return None)
  | address :: _ =>
      let identifier := split_dot_head (si_name info) in
      let hostname := si_server info in
      let port := si_port info in
      let found := Log DEBUG (MsgServiceFound hostname address port identifier) in
      let finish flags receiver_name :=
        Return (Some {| address := address; identifier := identifier;
                        hostname := hostname; port := port; flags := flags;
                        receiver_name := receiver_name |}) in
      match read_flags info with
      | Raise e => ([found], Raise e)
      | Return flags =>
          if Z.land flags SUPPORTS_DISCOVER_MAYBE =? 0
          then ([found], finish flags None)
          else
            match send_discover address port with
            | Return receiver_name =>
                ([found; SendDiscover address port], finish flags receiver_name)
            | Raise TimeoutError =>
                ([found; SendDiscover address port], finish flags None)
            | Raise e => ([found; SendDiscover address port], Raise e)
            end
      end
  end.

End WithEnvironment.

End Probe.

(** ** The shared catalogue and the probe threads *)

Module Coordinator.
Import Probe.

(** What the probe threads share: the list [self.discover], the state of
    [self.lock] ([true] when held), and the events emitted so far. *)
Record shared : Type := {
  discover : list PeerRecord;
  lock : bool;
  trace : list event
}.

Definition initial : shared :=
  {| discover := []; lock := false; trace := [] |}.

Definition emit (evs : list event) (s : shared) : shared :=
  {| discover := discover s; lock := lock s; trace := trace s ++ evs |}.

Definition set_lock (b : bool) (s : shared) : shared :=
  {| discover := discover s; lock := b; trace := trace s |}.

(** [self.discover.append(node_info)] *)
Definition append (r : PeerRecord) (s : shared) : shared :=
  {| discover := discover s ++ [r]; lock := lock s; trace := trace s |}.

(** The indices announced by the [Found  index ..] lines of a trace. *)
Fixpoint reported_indices (tr : list event) : list nat :=
  match tr with
  | [] => []
  | Log _ (MsgFound index _ _) :: rest => index :: reported_indices rest
  | _ :: rest => reported_indices rest
  end.

(** The number of [client.send_discover] calls in a trace. *)
Fixpoint network_calls (tr : list event) : nat :=
  match tr with
  | [] => 0
  | SendDiscover _ _ :: rest => S (network_calls rest)
  | _ :: rest => network_calls rest
  end.

(** *** Threads

    [_found_receiver] starts one thread per announcement, each running
    [_send_discover].  A thread is at one of the places where another
    thread may run before it continues: lines 234-261 use no shared
    state and make one step. *)
Inductive pc : Type :=
| Line234 (info : ServiceRecord)      (* entry *)
| Line263 (l : locals)                (* index = len(self.discover) *)
| Line272 (l : locals) (index : nat)  (* self.lock.acquire() *)
| Line273 (l : locals) (index : nat)  (* self.discover.append(node_info) *)
| Line274 (l : locals) (index : nat)  (* the logger call *)
| Line278                             (* self.lock.release() *)
| Finished (r : outcome unit).

(** The places between [acquire] and [release]. *)
Definition holds_lock (t : pc) : bool :=
  match t with
  | Line273 _ _ | Line274 _ _ | Line278 => true
  | _ => false
  end.

Definition lock_holders (ts : list pc) : nat :=
  List.length (List.filter holds_lock ts).

(** The threads of a [find] run and the state they share. *)
Record system : Type := {
  threads : list pc;
  store : shared
}.

(** The lock is held exactly when one thread is between lines 273 and
    278, and then by that thread alone. *)
Definition exclusive (sys : system) : Prop :=
  lock_holders (threads sys) = if lock (store sys) then 1%nat else 0%nat.

Definition finished_normally (t : pc) : bool :=
  match t with
  | Finished (Return _) => true
  | _ => false
  end.

Section WithEnvironment.

Variable SUPPORTS_DISCOVER_MAYBE : Z.
Variable send_discover : string -> Z -> outcome (option string).

(** Lines 233-278 run without interruption by another thread.  [None]
    stands for a call that never returns because [self.lock] is held and
    nobody is there to release it. *)
Definition _send_discover (info : ServiceRecord) (s : shared)
  : option (outcome unit * shared) :=
  let '(evs, r) := probe SUPPORTS_DISCOVER_MAYBE send_discover info in
  let s := emit evs s in
  match r with
  | Raise e => Some (Raise e, s)
  | Return None => Some (Return tt, s)
  | Return (Some l) =>
      let index := List.length (discover s) in
      if lock s then None
      else
        let s := set_lock true s in
        let s := append (node_info l) s in
        let s := emit [report_line l index] s in
        let s := set_lock false s in
        Some (Return tt, s)
  end.

(** One step of a thread; [None] when it cannot move: it waits for the
    lock, or it has finished. *)
Definition thread_step (t : pc) (s : shared) : option (pc * shared) :=
  match t with
  | Line234 info =>
      let '(evs, r) := probe SUPPORTS_DISCOVER_MAYBE send_discover info in
      Some (match r with
            | Raise e => Finished (Raise e)
            | Return None => Finished (Return tt)
            | Return (Some l) => Line263 l
            end, emit evs s)
  | Line263 l => Some (Line272 l (List.length (discover s)), s)
  | Line272 l index =>
      if lock s then None else Some (Line273 l index, set_lock true s)
  | Line273 l index => Some (Line274 l index, append (node_info l) s)
  | Line274 l index => Some (Line278, emit [report_line l index] s)
  | Line278 => Some (Finished (Return tt), set_lock false s)
  | Finished _ => None
  end.

(** [_found_receiver(info)]: a new thread. *)
Definition _found_receiver (info : ServiceRecord) (sys : system) : system :=
  {| threads := threads sys ++ [Line234 info]; store := store sys |}.

(** All announcements delivered, no thread has moved yet. *)
Definition launch (announced : list ServiceRecord) : system :=
  {| threads := map Line234 announced; store := initial |}.

(** The scheduler lets thread [i] make one step. *)
Definition sched_step (i : nat) (sys : system) : option system :=
  match threads sys !! i with
  | Some t =>
      match thread_step t (store sys) with
      | Some (t', s') =>
          Some {| threads := <[i := t']> (threads sys); store := s' |}
      | None => None
      end
  | None => None
  end.

(** A schedule is the list of the threads chosen, in order. *)
Fixpoint run (schedule : list nat) (sys : system) : option system :=
  match schedule with
  | [] => Some sys
  | i :: rest =>
      match sched_step i sys with
      | Some sys' => run rest sys'
      | None => None
      end
  end.

End WithEnvironment.

End Coordinator.

(** ** Sample data: the records used in the specification's examples *)

Module Samples.
Import Resolver.

Definition bob : PeerRecord :=
  {| pr_name := Some "Bob"; pr_address := "fe80::1"; pr_port := 8770;
     pr_id := "aa11bb22cc33"; pr_flags := 1; pr_discoverable := true |}.

Definition report_bob : list PeerRecord := [bob].

(** A report file holding [R], last written at [mt], looked at at [t]. *)
Definition world_with (R : list PeerRecord) (t mt : Q) : world :=
  {| now := t; discovery_report := Some {| mtime := mt; infos := R |} |}.

Definition service_a : ServiceRecord :=
  {| si_name := "aaaaaaaaaaaa.local"; si_server := "a.local.";
     si_parsed_addresses := ["fe80::1"]; si_port := 8770;
     si_properties := {[ "flags" := "1" ]} |}.

Definition service_b : ServiceRecord :=
  {| si_name := "bbbbbbbbbbbb.local"; si_server := "b.local.";
     si_parsed_addresses := ["fe80::2"]; si_port := 8770;
     si_properties := ∅ |}.

Definition service_without_address : ServiceRecord :=
  {| si_name := "cccccccccccc.local"; si_server := "c.local.";
     si_parsed_addresses := []; si_port := 8770;
     si_properties := ∅ |}.

(** What lines 234-261 leave behind for [service_b] when the mask is 128
    and the peer answers with the name [n]: the locals and the events. *)
Definition locals_b (n : string) : Probe.locals :=
  {| Probe.address := "fe80::2"; Probe.identifier := "bbbbbbbbbbbb";
     Probe.hostname := "b.local."; Probe.port := 8770; Probe.flags := 128;
     Probe.receiver_name := Some n |}.

Definition events_b : list event :=
  [Log DEBUG (MsgServiceFound "b.local." "fe80::2" 8770 "bbbbbbbbbbbb");
   SendDiscover "fe80::2" 8770].

(** A peer that answers every discovery request with the name [n]. *)
Definition answers (n : string) : string -> Z -> outcome (option string) :=
  fun _ _ => Return (Some n).

(** A peer that never answers in time. *)
Definition times_out : string -> Z -> outcome (option string) :=
  fun _ _ => Raise TimeoutError.

End Samples.

(** ** A discovery run: [AirDropCli.find] *)

Module Find.
Import Probe Coordinator.

(** What happens while [find] waits at line 220: the browser announces a
    service and [_found_receiver] starts a thread, or the scheduler lets
    one of the threads make a step. *)
Inductive occurrence : Type :=
| Announce (info : ServiceRecord)
| Step (i : nat).

(** The state at line 219: no thread yet, the catalogue of line 138 and
    the lock of line 139. *)
Definition started : system :=
  {| threads := []; store := initial |}.

(** The threads that are past the append of line 273 or have ended, one
    way or the other: the only ones that can have a record in the
    catalogue. *)
Definition past_append (t : pc) : bool :=
  match t with
  | Line274 _ _ | Line278 | Finished _ => true
  | _ => false
  end.

Definition is_finished (t : pc) : bool :=
  match t with
  | Finished _ => true
  | _ => false
  end.

(** The two lines [find] logs itself. *)
Inductive find_event : Type :=
| Looking                       (* Looking for receivers. Press Ctrl+C ... *)
| FromProbe (e : event)
| Saving.                       (* Save discovery results to ... *)

(** What [find] leaves behind: the report file and the lines logged up to
    the moment it is written. *)
Record find_result : Type := {
  report : Resolver.report_file;
  find_log : list find_event
}.

(** The services announced during a run, in order. *)
Fixpoint announcements (occs : list occurrence) : list ServiceRecord :=
  match occs with
  | [] => []
  | Announce info :: rest => info :: announcements rest
  | Step _ :: rest => announcements rest
  end.

(** The index a thread carries is a position of a catalogue of [n]
    records, or the next one as long as its own record is not appended. *)
Definition index_in_reach (n : nat) (t : pc) : Prop :=
  match t with
  | Line272 _ index | Line273 _ index => (index <= n)%nat
  | Line274 _ index => (index < n)%nat
  | _ => True
  end.

(** A record as [node_info] builds it: discoverable exactly when named. *)
Definition consistent (r : PeerRecord) : Prop :=
  pr_discoverable r = true <-> pr_name r <> None.

Section WithEnvironment.

Variable SUPPORTS_DISCOVER_MAYBE : Z.
Variable send_discover : string -> Z -> outcome (option string).

(** The probe of a service gets as far as line 261. *)
Definition probe_succeeds (info : ServiceRecord) : Prop :=
  exists evs l,
    probe SUPPORTS_DISCOVER_MAYBE send_discover info = (evs, Return (Some l)).

Definition thread_succeeds (t : pc) : Prop :=
  match t with
  | Line234 info => probe_succeeds info
  | _ => True
  end.

Definition occur (o : occurrence) (sys : system) : option system :=
  match o with
  | Announce info => Some (_found_receiver info sys)
  | Step i => sched_step SUPPORTS_DISCOVER_MAYBE send_discover i sys
  end.

Fixpoint find_run (occs : list occurrence) (sys : system) : option system :=
  match occs with
  | [] => Some sys
  | o :: rest =>
      match occur o sys with
      | Some sys' => find_run rest sys'
      | None => None
      end
  end.

(** Lines 223-227, the [finally] block, run at time [t]: the catalogue as
    it is at that moment is written to the report file; threads that have
    not appended yet are not waited for. *)
Definition flush (t : Q) (sys : system) : find_result :=
  {| report := {| Resolver.mtime := t;
                  Resolver.infos := discover (store sys) |};
     find_log := Looking :: map FromProbe (trace (store sys)) ++ [Saving] |}.

(** Lines 215-227: [occs] is what happens until the interrupt, [t] the
    time of the interrupt. *)
Definition find (occs : list occurrence) (t : Q) : option find_result :=
  match find_run occs started with
  | Some sys => Some (flush t sys)
  | None => None
  end.

End WithEnvironment.

End Find.

(** ** Command dispatch and the sending commands *)

Module Cli.
Import Resolver.

(** The [choices] of the positional argument. *)
Inductive action : Type :=
| Receive | DoFind | DoSend | Discover | Ask | Upload | AskUpload.

(** [args.port]: the integer default, or the string typed after [-P]. *)
Inductive port_value : Type :=
| PInt (z : Z)
| PStr (s : string).

(** The fields of the [argparse] namespace that lines 144-208 read. *)
Record args : Type := {
  a_action : action;
  a_file : option string;
  a_receiver : option string;
  a_address : option string;
  a_port : port_value;
  a_rawcpio : option string;
  a_payload : option string;
  a_binpayload : option string
}.

(** The calls of [parser.error], which end the program. *)
Inductive parser_error : Type :=
| PayloadNotFound (path : string)   (* custom payload file .. not found *)
| NeedAddressDiscover               (* Need -A, --address when using raw discover *)
| NeedAddressRaw                    (* Need -A, --address when using raw ask/... *)
| FileNotFound                      (* File in -f,--file not found *)
| RawcpioNotFound                   (* File in -R,--rawcipio not found *)
| NeedFile                          (* Need -f,--file when using send *)
| NeedReceiver.                     (* Need -r,--receiver when using send *)

(** The method the dispatch ends in, with the attributes it has set. *)
Inductive command : Type :=
| CmdReceive
| CmdFind
| CmdDiscover (address : string) (port : port_value)
| CmdAsk (address : string) (port : port_value) (file rawcpio : option string)
| CmdUpload (address : string) (port : port_value) (file rawcpio : option string)
| CmdAskUpload (address : string) (port : port_value)
               (file rawcpio : option string)
| CmdSend (file : string) (receiver : string).

Inductive cli_message : Type :=
| MsgPayloadUnreadable (path : string) (* Unable to read ... payload: .. *)
| MsgSendingDiscover                (* Sending Discover to .. *)
| MsgSendingAsk                     (* Sending Ask to .. *)
| MsgSendingUpload                  (* Sending Upload to .. *)
| MsgSendingAskUpload               (* Sending Ask-Upload to .. *)
| MsgNeedFileOrRawcpio              (* Need either -f,--file or -R,--rawcpio *)
| MsgDotAsk                         (* ..Ask *)
| MsgDotUpload                      (* ..Upload *)
| MsgAsking                         (* Asking receiver to accept ... *)
| MsgDeclined                       (* Receiver declined *)
| MsgAccepted                       (* Receiver accepted *)
| MsgUploading                      (* Uploading file ... *)
| MsgUploadFailed                   (* Uploading has failed *)
| MsgUploadOk.                      (* Uploading has been successful *)

Inductive cli_event : Type :=
| FromResolver (e : event)          (* logged by [_get_receiver_info] *)
| CliLog (l : level) (m : cli_message)
| NetDiscover (address : string) (port : port_value)
| NetAsk (address : string) (port : port_value) (file : option string)
| NetUpload (address : string) (port : port_value)
            (file rawcpio : option string).

(** The actions for which [-f] is checked, and those for which [-R] is. *)
Definition checks_file (act : action) : bool :=
  match act with
  | Ask | Upload | AskUpload | DoSend => true
  | _ => false
  end.

Definition checks_rawcpio (act : action) : bool :=
  match act with
  | Ask | Upload | AskUpload => true
  | _ => false
  end.

(** The requests of a trace that reach the network. *)
Definition is_network (e : cli_event) : bool :=
  match e with
  | NetDiscover _ _ | NetAsk _ _ _ | NetUpload _ _ _ _ => true
  | _ => false
  end.

Definition is_ask (e : cli_event) : bool :=
  match e with
  | NetAsk _ _ _ => true
  | _ => false
  end.

Definition is_upload (e : cli_event) : bool :=
  match e with
  | NetUpload _ _ _ _ => true
  | _ => false
  end.

Section WithEnvironment.

(** The value [json.load] builds. *)
Variable Json : Type.

(** The file system: [os.path.isfile], and what reading a file as JSON or
    as bytes gives. *)
Variable isfile : string -> bool.
Variable load_json : string -> outcome Json.
Variable read_bytes : string -> outcome string.

(** The protocol client for the endpoint [(address, port)], called with
    the two custom payloads. *)
Variable client_discover :
  string -> port_value -> option Json -> option string ->
  outcome (option string).
Variable client_ask :
  string -> port_value -> option string -> option Json -> option string ->
  outcome bool.
Variable client_upload :
  string -> port_value -> option string -> option string -> outcome bool.

(** Lines 384-391: any exception becomes a warning and [None]. *)
Definition _read_json_payload (fname : string)
  : option Json * list cli_event :=
  match load_json fname with
  | Return payload => (Some payload, [])
  | Raise _ => (None, [CliLog WARNING (MsgPayloadUnreadable fname)])
  end.

(** Lines 394-401. *)
Definition _read_binary_payload (fname : string)
  : option string * list cli_event :=
  match read_bytes fname with
  | Return payload => (Some payload, [])
  | Raise _ => (None, [CliLog WARNING (MsgPayloadUnreadable fname)])
  end.

(** [self.custom_payload], [self.raw_payload] and the method reached. *)
Record prepared : Type := {
  custom_payload : option Json;
  raw_payload : option string;
  dispatched : command
}.

(** Lines 146-149 and 150-153: an optional payload file must exist, and is
    then read. *)
Definition optional_payload {A : Type}
           (read : string -> option A * list cli_event) (path : option string)
  : parser_error + (option A * list cli_event) :=
  match path with
  | None => inr (None, [])
  | Some p => if isfile p then inr (read p) else inl (PayloadNotFound p)
  end.

(** Lines 176-181 and 183-188: an optional file must exist. *)
Definition optional_file (err : parser_error) (path : option string)
  : parser_error + option string :=
  match path with
  | None => inr None
  | Some p => if isfile p then inr (Some p) else inl err
  end.

(** Lines 155-208: the checks made for an action, and the method called
    when they pass. *)
Definition choose (a : args) : parser_error + command :=
  match a_action a with
  | Receive => inr CmdReceive
  | DoFind => inr CmdFind
  | Discover =>
      match a_address a with
      | None => inl NeedAddressDiscover
      | Some address => inr (CmdDiscover address (a_port a))
      end
  | Ask | Upload | AskUpload =>
      match a_address a with
      | None => inl NeedAddressRaw
      | Some address =>
          match optional_file FileNotFound (a_file a) with
          | inl e => inl e
          | inr file =>
              match optional_file RawcpioNotFound (a_rawcpio a) with
              | inl e => inl e
              | inr rawcpio =>
                  inr (match a_action a with
                       | Ask => CmdAsk address (a_port a) file rawcpio
                       | Upload => CmdUpload address (a_port a) file rawcpio
                       | _ => CmdAskUpload address (a_port a) file rawcpio
                       end)
              end
          end
      end
  | DoSend =>
      match a_file a with
      | None => inl NeedFile
      | Some file =>
          if isfile file then
            match a_receiver a with
            | None => inl NeedReceiver
            | Some receiver => inr (CmdSend file receiver)
            end
          else inl FileNotFound
      end
  end.

(** Lines 144-208 up to the method call: the payloads first, then the
    action.  The events are the warnings of the payload readers. *)
Definition dispatch (a : args) : list cli_event * (parser_error + prepared) :=
  match optional_payload _read_json_payload (a_payload a) with
  | inl e => ([], inl e)
  | inr (custom, evs1) =>
      match optional_payload _read_binary_payload (a_binpayload a) with
      | inl e => (evs1, inl e)
      | inr (raw, evs2) =>
          match choose a with
          | inl e => (evs1 ++ evs2, inl e)
          | inr c =>
              (evs1 ++ evs2,
               inr {| custom_payload := custom; raw_payload := raw;
                      dispatched := c |})
          end
      end
  end.



(** [self.file is None and self.rawcpio is None] *)
Definition nothing_to_upload (file rawcpio : option string) : bool :=
  match file, rawcpio with
  | None, None => true
  | _, _ => false
  end.


(** Lines 300-311: the answer to the ask is not looked at. *)
Definition _send_ask_and_upload (custom : option Json) (raw : option string)
           (file rawcpio : option string)
           (address : string) (port : port_value)
  : list cli_event * outcome unit :=
  if nothing_to_upload file rawcpio then
    ([CliLog DEBUG MsgSendingAskUpload; CliLog ERROR MsgNeedFileOrRawcpio],
     Return tt)
  else
    let evs := [CliLog DEBUG MsgSendingAskUpload; CliLog DEBUG MsgDotAsk;
                NetAsk address port file] in
    match client_ask address port file custom raw with
    | Raise e => (evs, Raise e)
    | Return _ =>
        let evs := evs ++ [CliLog DEBUG MsgDotUpload;
                           NetUpload address port file rawcpio] in
        match client_upload address port file rawcpio with
        | Return _ => (evs, Return tt)
        | Raise e => (evs, Raise e)
        end
    end.

(** Lines 330-346 *)
Definition send (custom : option Json) (raw : option string)
           (file receiver : string) (w : world)
  : list cli_event * outcome unit :=
  let r := _get_receiver_info (RStr receiver) w in
  let evs := map FromResolver (logged r) in
  match returned r with
  | Raise e => (evs, Raise e)
  | Return None => (evs, Return tt)
  | Return (Some info) =>
      let address := pr_address info in
      let port := PInt (pr_port info) in
      let evs := evs ++ [CliLog INFO MsgAsking;
                         NetAsk address port (Some file)] in
      match client_ask address port (Some file) custom raw with
      | Raise e => (evs, Raise e)
      | Return false => (evs ++ [CliLog WARNING MsgDeclined], Return tt)
      | Return true =>
          let evs := evs ++ [CliLog INFO MsgAccepted; CliLog INFO MsgUploading;
                             NetUpload address port (Some file) None] in
          match client_upload address port (Some file) None with
          | Raise e => (evs, Raise e)
          | Return false => (evs ++ [CliLog WARNING MsgUploadFailed], Return tt)
          | Return true => (evs ++ [CliLog INFO MsgUploadOk], Return tt)
          end
      end
  end.


End WithEnvironment.

End Cli.

(** ** The records a token names *)

Module Tiers.
Import Resolver.

(** The records of a report whose name is [t], in catalogue order. *)
Definition records_with_name (t : string) (R : list PeerRecord)
  : list PeerRecord :=
  List.filter (fun info => name_eq info (RStr t)) R.

(** [z] is no position of a list of [n] elements, counted from either
    end. *)
Definition out_of_range (n : nat) (z : Z) : Prop :=
  z < - Z.of_nat n \/ Z.of_nat n <= z.

End Tiers.

(** ** Sample runs *)

Module Runs.
Import Find Samples.

(** One announcement, and the six steps of its thread. *)
Definition one_probe : list occurrence :=
  [Announce service_b; Step 0; Step 0; Step 0; Step 0; Step 0; Step 0]%nat.

(** A second announcement after that, and the six steps of its thread. *)
Definition second_probe : list occurrence :=
  [Announce service_b; Step 1; Step 1; Step 1; Step 1; Step 1; Step 1]%nat.

(** Two announcements; both threads read the length of the catalogue
    before either takes the lock. *)
Definition two_racing : list occurrence :=
  [Announce service_b; Announce service_b;
   Step 0; Step 1; Step 0; Step 1;
   Step 0; Step 0; Step 0; Step 0;
   Step 1; Step 1; Step 1; Step 1]%nat.

(** Two announcements; the interrupt comes while the second thread still
    waits for the lock. *)
Definition one_in_flight : list occurrence :=
  [Announce service_b; Announce service_b;
   Step 0; Step 1; Step 0; Step 1; Step 0]%nat.

(** A service whose [flags] property is no number. *)
Definition service_bad_flags : ServiceRecord :=
  {| si_name := "dddddddddddd.local"; si_server := "d.local.";
     si_parsed_addresses := ["fe80::4"]; si_port := 8770;
     si_properties := {[ "flags" := "0x1" ]} |}.

(** A record whose name is the id of [bob]. *)
Definition namesake : PeerRecord :=
  {| pr_name := Some "aa11bb22cc33"; pr_address := "fe80::9";
     pr_port := 8770; pr_id := "ffffffffffff"; pr_flags := 0;
     pr_discoverable := true |}.

(** A peer whose connection fails with something else than a timeout. *)
Definition refuses : string -> Z -> outcome (option string) :=
  fun _ _ => Raise (OtherError "ConnectionRefusedError").


Definition send_photo : Cli.args :=
  {| Cli.a_action := Cli.DoSend; Cli.a_file := Some "photo.jpg";
     Cli.a_receiver := Some "0"; Cli.a_address := None;
     Cli.a_port := Cli.PInt 8770; Cli.a_rawcpio := None;
     Cli.a_payload := None; Cli.a_binpayload := None |}.

(** A file system with the one file [photo.jpg]; no payload is read. *)
Definition only_photo : string -> bool :=
  fun path => String.eqb path "photo.jpg".

Definition unreadable {A : Type} : string -> outcome A :=
  fun _ => Raise (OtherError "FileNotFoundError").

(** Receivers that accept, or decline, every ask; uploads that succeed. *)
Definition accepts
  : string -> Cli.port_value -> option string -> option unit ->
    option string -> outcome bool :=
  fun _ _ _ _ _ => Return true.

Definition declines
  : string -> Cli.port_value -> option string -> option unit ->
    option string -> outcome bool :=
  fun _ _ _ _ _ => Return false.

Definition uploads_fine
  : string -> Cli.port_value -> option string -> option string ->
    outcome bool :=
  fun _ _ _ _ => Return true.

End Runs.

(** * Properties *)

(** ** The built-ins on sample inputs *)

Module PyIntTests.
Import PyInt.

Example int_underscore : int_of_str "1_0" = Return 10.
Proof. reflexivity. Qed.
Example int_leading_underscore : int_of_str "_1" = Raise ValueError.
Proof. reflexivity. Qed.
Example int_double_underscore : int_of_str "1__0" = Raise ValueError.
Proof. reflexivity. Qed.
Example int_trailing_underscore : int_of_str "1_" = Raise ValueError.
Proof. reflexivity. Qed.
Example int_blanks_and_zeros : int_of_str " 007 " = Return 7.
Proof. reflexivity. Qed.
Example int_negative : int_of_str "-12" = Return (-12).
Proof. reflexivity. Qed.
Example int_two_signs : int_of_str "+-1" = Raise ValueError.
Proof. reflexivity. Qed.
Example int_sign_then_blank : int_of_str "- 1" = Raise ValueError.
Proof. reflexivity. Qed.
Example int_empty : int_of_str "" = Raise ValueError.
Proof. reflexivity. Qed.
Example int_hex_id : int_of_str "aa11bb22cc33" = Raise ValueError.
Proof. reflexivity. Qed.
Example int_no_break_space :
  int_of_str (String (ascii_of_nat 160) "1") = Return 1
  /\ int_of_bytes (String (ascii_of_nat 160) "1") = Raise ValueError.
Proof. split; reflexivity. Qed.
Example int_file_separator :
  int_of_str (String (ascii_of_nat 28) "1") = Raise ValueError.
Proof. reflexivity. Qed.
Example str_zero : str_of_int 0 = "0".
Proof. reflexivity. Qed.
Example str_negative : str_of_int (-305) = "-305".
Proof. reflexivity. Qed.
Example getitem_last : list_getitem [1; 2; 3] (-1) = Some 3.
Proof. reflexivity. Qed.
Example getitem_before_first : list_getitem [1; 2; 3] (-4) = None.
Proof. reflexivity. Qed.
Example getitem_after_last : list_getitem [1; 2; 3] 3 = None.
Proof. reflexivity. Qed.
Example split_first_label :
  Probe.split_dot_head "aaaaaaaaaaaa.local" = "aaaaaaaaaaaa"
  /\ Probe.split_dot_head "abc" = "abc" /\ Probe.split_dot_head ".x" = "".
Proof. repeat split. Qed.

End PyIntTests.

(** ** Decimal round trip: [int(str(z)) == z] *)

Module PyIntFacts.
Import PyInt.

Lemma scan_step_digit (c : ascii) (d : N) (r : string) (nd : nat) (acc : N) :
  is_underscore c = false -> digit_value c = Some d ->
  scan_digits (String c r) false nd acc
  = scan_digits r false (S nd) (10 * acc + d)%N.
Proof. intros Hu Hd. cbn [scan_digits]. now rewrite Hu, Hd. Qed.

Ltac scan_one_digit :=
  match goal with
  | |- scan_digits (String ?c _) false _ _ = _ =>
      let v := eval vm_compute in (digit_value c) in
      match v with
      | Some ?d => rewrite (scan_step_digit c d) by reflexivity
      end
  end.

Lemma scan_uint_pos (d : Decimal.uint) :
  forall (nd : nat) (p : positive),
    scan_digits (NilEmpty.string_of_uint d) false nd (Npos p)
    = Some (Npos (Pos.of_uint_acc d p), (nd + Decimal.nb_digits d)%nat,
            EmptyString).
Proof.
  induction d; intros nd p;
    cbn [NilEmpty.string_of_uint Decimal.nb_digits Pos.of_uint_acc];
    [ cbn; now rewrite Nat.add_0_r
    | scan_one_digit;
      rewrite Nat.add_succ_r, <- Nat.add_succ_l, <- IHd; f_equal; lia .. ].
Qed.

Lemma scan_uint_zero (d : Decimal.uint) :
  forall nd : nat,
    scan_digits (NilEmpty.string_of_uint d) false nd 0%N
    = Some (Pos.of_uint d, (nd + Decimal.nb_digits d)%nat, EmptyString).
Proof.
  induction d; intros nd;
    cbn [NilEmpty.string_of_uint Decimal.nb_digits Pos.of_uint];
    [ cbn; now rewrite Nat.add_0_r
    | scan_one_digit; rewrite Nat.add_succ_r, <- Nat.add_succ_l;
      first [ rewrite <- IHd; reflexivity
            | rewrite <- scan_uint_pos; reflexivity ] .. ].
Qed.

(** The digits of a number: never empty, never starting with an
    underscore or a sign. *)
Lemma string_of_uint_cons (d : Decimal.uint) :
  d <> Decimal.Nil ->
  exists c r, NilEmpty.string_of_uint d = String c r
              /\ is_underscore c = false /\ Py_ISSPACE c = false
              /\ c <> "+"%char /\ c <> "-"%char
              /\ (0 < Decimal.nb_digits d)%nat.
Proof.
  destruct d; intros H; try congruence;
    cbn [NilEmpty.string_of_uint Decimal.nb_digits];
    eexists _, _; repeat split; try discriminate; lia.
Qed.

Lemma transform_uint (d : Decimal.uint) :
  transform_to_ascii (NilEmpty.string_of_uint d) = NilEmpty.string_of_uint d.
Proof.
  induction d; cbn [NilEmpty.string_of_uint transform_to_ascii]; trivial;
    (match goal with |- (if ?b then _ else _) = _ => change b with true end);
    cbv iota; now rewrite IHd.
Qed.

Lemma digits_to_end_uint (negative : bool) (d : Decimal.uint) :
  d <> Decimal.Nil ->
  digits_to_end negative (NilEmpty.string_of_uint d)
  = Some (if negative then - Z.of_N (Pos.of_uint d) else Z.of_N (Pos.of_uint d)).
Proof.
  intros Hd.
  destruct (string_of_uint_cons d Hd) as (c & r & E & Hu & _ & _ & _ & Hn).
  unfold digits_to_end.
  assert (Hus : forall X Y : option Z,
             match NilEmpty.string_of_uint d with
             | String "_"%char _ => X | _ => Y end = Y).
  { intros X Y. rewrite E.
    destruct c as [[] [] [] [] [] [] [] []]; try reflexivity; discriminate. }
  rewrite Hus, scan_uint_zero. cbn [Nat.add].
  destruct (Decimal.nb_digits d) eqn:En; [lia|]. reflexivity.
Qed.

Lemma PyLong_uint (d : Decimal.uint) :
  d <> Decimal.Nil ->
  PyLong_FromString (NilEmpty.string_of_uint d) = Some (Z.of_N (Pos.of_uint d)).
Proof.
  intros Hd. rewrite <- (digits_to_end_uint false d Hd).
  destruct (string_of_uint_cons d Hd) as (c & r & E & _ & Hs & Hp & Hm & _).
  unfold PyLong_FromString. rewrite E. cbn [skip_spaces]. rewrite Hs.
  destruct c as [[] [] [] [] [] [] [] []]; try reflexivity; congruence.
Qed.

Lemma NilZero_uint (d : Decimal.uint) :
  d <> Decimal.Nil -> NilZero.string_of_uint d = NilEmpty.string_of_uint d.
Proof. destruct d; intros H; try reflexivity; congruence. Qed.

(** [int(str(z)) == z] for every integer [z]. *)
Lemma int_of_str_of_int (z : Z) : int_of_str (str_of_int z) = Return z.
Proof.
  unfold int_of_str, str_of_int.
  destruct z as [|p|p]; [reflexivity| |];
    assert (Hn := DecimalPos.Unsigned.to_uint_nonnil p);
    cbn [Z.to_int NilZero.string_of_int]; rewrite (NilZero_uint _ Hn).
  - rewrite transform_uint, (PyLong_uint _ Hn), DecimalPos.Unsigned.of_to.
    reflexivity.
  - cbn [transform_to_ascii]. change (nat_of_ascii "-" <? 127)%nat with true.
    cbv iota. rewrite transform_uint.
    unfold PyLong_FromString. cbn [skip_spaces].
    change (Py_ISSPACE "-") with false. cbv iota.
    rewrite (digits_to_end_uint true _ Hn), DecimalPos.Unsigned.of_to.
    reflexivity.
Qed.

End PyIntFacts.

(** ** Receiver resolution *)

Module ResolverFacts.
Import PyInt Resolver.

Lemma list_getitem_nonneg {A : Type} (l : list A) (i : Z) :
  0 <= i < Z.of_nat (List.length l) ->
  list_getitem l i = nth_error l (Z.to_nat i).
Proof.
  intros [H0 H1]. unfold list_getitem. cbv zeta.
  assert (E0 : (i <? 0) = false) by (apply Z.ltb_ge; lia).
  assert (E1 : (Z.of_nat (List.length l) <=? i) = false)
    by (apply Z.leb_gt; lia).
  now rewrite E0, E0, E1.
Qed.

Lemma list_getitem_last {A : Type} (front : list A) (x : A) :
  list_getitem (front ++ [x]) (-1) = Some x.
Proof.
  unfold list_getitem. cbv zeta. rewrite List.length_app. cbn [List.length].
  change (-1 <? 0) with true. cbv iota.
  set (n := Z.of_nat (List.length front + 1)).
  assert (E0 : (-1 + n <? 0) = false) by (apply Z.ltb_ge; lia).
  assert (E1 : (n <=? -1 + n) = false) by (apply Z.leb_gt; lia).
  rewrite E0, E1. cbn [orb].
  replace (Z.to_nat (-1 + n)) with (List.length front + 0)%nat by lia.
  rewrite nth_error_app2 by lia.
  replace (List.length front + 0 - List.length front)%nat with 0%nat by lia.
  reflexivity.
Qed.

Lemma list_getitem_out_of_range {A : Type} (l : list A) (i : Z) :
  i < - Z.of_nat (List.length l) \/ Z.of_nat (List.length l) <= i ->
  list_getitem l i = None.
Proof.
  intros H. unfold list_getitem. cbv zeta.
  destruct (Z.ltb_spec i 0) as [Hneg|Hpos].
  - assert (E : (i + Z.of_nat (List.length l) <? 0) = true)
      by (apply Z.ltb_lt; lia).
    now rewrite E.
  - assert (E0 : (i <? 0) = false) by (apply Z.ltb_ge; lia).
    assert (E1 : (Z.of_nat (List.length l) <=? i) = true)
      by (apply Z.leb_le; lia).
    now rewrite E0, E1.
Qed.

(** The index tier answers as soon as the token is an integer that is a
    valid position. *)
Lemma resolve_index_hit (receiver : receiver_t) (R : list PeerRecord)
      (z : Z) (info : PeerRecord) :
  py_int receiver = Return z -> list_getitem R z = Some info ->
  resolve receiver R
  = {| returned := Return (Some info); receiver_after := RInt z; logged := [] |}.
Proof.
  intros Hi Hg. unfold resolve, index_tier. now rewrite Hi, Hg.
Qed.

(** An integer token that is no valid position leaves an [int] in
    [self.receiver], and [len] of it raises. *)
Lemma resolve_index_miss (receiver : receiver_t) (R : list PeerRecord) (z : Z) :
  py_int receiver = Return z -> list_getitem R z = None ->
  resolve receiver R
  = {| returned := Raise TypeError; receiver_after := RInt z; logged := [] |}.
Proof.
  intros Hi Hg. unfold resolve, index_tier. now rewrite Hi, Hg.
Qed.

(** A token that is no integer goes through the identifier and name
    tiers as a string. *)
Lemma resolve_not_integer (t : string) (R : list PeerRecord) :
  int_of_str t = Raise ValueError ->
  resolve (RStr t) R
  = match (if (String.length t =? 12)%nat
           then List.find (fun info => id_eq info (RStr t)) R else None) with
    | Some info => {| returned := Return (Some info);
                      receiver_after := RStr t; logged := [] |}
    | None =>
        match List.find (fun info => name_eq info (RStr t)) R with
        | Some info => {| returned := Return (Some info);
                          receiver_after := RStr t; logged := [] |}
        | None => {| returned := Return None; receiver_after := RStr t;
                     logged := [Log ERROR MsgReceiverDoesNotExist] |}
        end
    end.
Proof.
  intros Hi. unfold resolve, index_tier. cbn [py_int py_len]. now rewrite Hi.
Qed.

Lemma find_filter_head {A : Type} (p : A -> bool) (l : list A) :
  List.find p l = List.head (List.filter p l).
Proof.
  induction l as [|x l IH]; [reflexivity|].
  cbn [List.find List.filter]. destruct (p x); [reflexivity|exact IH].
Qed.

Lemma find_none_iff {A : Type} (p : A -> bool) (l : list A) :
  List.find p l = None <-> (forall x, In x l -> p x = false).
Proof.
  split.
  - intros H x Hx. exact (List.find_none p l H x Hx).
  - induction l as [|y l IH]; intros H; [reflexivity|].
    cbn [List.find]. rewrite (H y (or_introl eq_refl)).
    apply IH. intros x Hx. apply H. now right.
Qed.

(** The identifier tier returns the first record, in catalogue order, whose
    id is the token. *)
Lemma id_tier_first_match (t : string) (R : list PeerRecord)
      (info : PeerRecord) (others : list PeerRecord) :
  int_of_str t = Raise ValueError -> String.length t = 12%nat ->
  records_with_id t R = info :: others ->
  resolve (RStr t) R
  = {| returned := Return (Some info); receiver_after := RStr t; logged := [] |}.
Proof.
  intros Hi Hl Hf. rewrite (resolve_not_integer t R Hi), Hl.
  change (12 =? 12)%nat with true. cbv iota.
  rewrite find_filter_head. unfold records_with_id in Hf.
  cbn [id_eq]. now rewrite Hf.
Qed.

(** A token that is no integer and that equals no id and no name is
    reported as not found. *)
Lemma not_integer_no_match_not_found (t : string) (R : list PeerRecord) :
  int_of_str t = Raise ValueError ->
  (forall info, In info R -> pr_id info <> t) ->
  (forall info, In info R -> pr_name info <> Some t) ->
  receiver_not_found (resolve (RStr t) R).
Proof.
  intros Hi Hid Hname. rewrite (resolve_not_integer t R Hi).
  assert (E1 : List.find (fun info => id_eq info (RStr t)) R = None).
  { apply find_none_iff. intros x Hx. cbn [id_eq].
    apply String.eqb_neq. now apply Hid. }
  assert (E2 : List.find (fun info => name_eq info (RStr t)) R = None).
  { apply find_none_iff. intros x Hx. unfold name_eq.
    destruct (pr_name x) as [n|] eqn:En; [|reflexivity].
    apply String.eqb_neq. intros ->. apply (Hname x Hx). exact En. }
  rewrite E1, E2. destruct (String.length t =? 12)%nat; split; reflexivity.
Qed.

Lemma stale_is_older (age : Q) : (60 < age)%Q -> older_than_a_minute age = true.
Proof.
  intros H. unfold older_than_a_minute.
  destruct (Qle_bool age 60) eqn:E; [|reflexivity].
  apply Qle_bool_iff in E. exfalso. exact (Qlt_not_le _ _ H E).
Qed.

Lemma fresh_is_not_older (age : Q) : (age <= 60)%Q -> older_than_a_minute age = false.
Proof.
  intros H. unfold older_than_a_minute.
  apply Qle_bool_iff in H. now rewrite H.
Qed.

End ResolverFacts.

Module ResolverClaims.
Import PyInt Resolver Samples PyIntFacts ResolverFacts.

(** C1. For every persisted report [R] and every integer [i] with
    [0 <= i < len(R)], resolving the token [str(i)] succeeds and returns
    the record [R[i]]. *)
Theorem index_token_returns_element (w : world) (f : report_file) (i : Z) :
  discovery_report w = Some f ->
  0 <= i < Z.of_nat (List.length (infos f)) ->
  exists info,
    nth_error (infos f) (Z.to_nat i) = Some info
    /\ returned (_get_receiver_info (RStr (str_of_int i)) w)
       = Return (Some info).
Proof.
  intros Hf Hi.
  destruct (nth_error (infos f) (Z.to_nat i)) as [info|] eqn:En.
  - exists info. split; [reflexivity|].
    unfold _get_receiver_info. rewrite Hf. cbn [returned].
    rewrite (resolve_index_hit (RStr (str_of_int i)) (infos f) i info);
      [reflexivity | apply int_of_str_of_int |].
    now rewrite list_getitem_nonneg.
  - apply nth_error_None in En. lia.
Qed.

Lemma index_token_returns_element_witness :
  discovery_report (world_with report_bob 100 90) 
  = Some {| mtime := 90; infos := report_bob |}
  /\ 0 <= 0 < Z.of_nat (List.length report_bob)
  /\ exists info,
      nth_error report_bob (Z.to_nat 0) = Some info
      /\ returned (_get_receiver_info (RStr (str_of_int 0))
                     (world_with report_bob 100 90))
         = Return (Some info).
Proof.
  split; [reflexivity|]. split; [simpl; lia|].
  apply (index_token_returns_element (world_with report_bob 100 90)
           {| mtime := 90; infos := report_bob |} 0);
    [reflexivity | simpl; lia].
Defined.

(** C2, evaluated on the code.  The token ["1"] matches no index, id or
    name of the one-record report, yet the call does not end with the
    not-found outcome: the index tier has stored the integer 1 in
    [self.receiver], and [len(self.receiver)] of line 369 raises
    [TypeError]. *)
Theorem out_of_range_index_raises_TypeError (t mt : Q) :
  list_getitem report_bob 1 = None
  /\ (forall info, In info report_bob ->
        pr_id info <> "1" /\ pr_name info <> Some "1")
  /\ returned (_get_receiver_info (RStr "1") (world_with report_bob t mt))
     = Raise TypeError
  /\ ~ receiver_not_found
         (_get_receiver_info (RStr "1") (world_with report_bob t mt)).
Proof.
  split; [reflexivity|]. split.
  - intros info [<-|[]]. split; discriminate.
  - split; [reflexivity|]. intros [H _]. discriminate H.
Qed.

(** C3. For every report [R] and every token [t] of exactly 12 characters
    that does not parse as an integer, if exactly one record of [R] has id
    equal to [t], then resolution returns that record. *)
Theorem unique_id_token_returns_record
        (w : world) (f : report_file) (t : string) (info : PeerRecord) :
  discovery_report w = Some f ->
  String.length t = 12%nat ->
  int_of_str t = Raise ValueError ->
  records_with_id t (infos f) = [info] ->
  returned (_get_receiver_info (RStr t) w) = Return (Some info).
Proof.
  intros Hf Hl Hi Hu. unfold _get_receiver_info. rewrite Hf. cbn [returned].
  now rewrite (id_tier_first_match t (infos f) info [] Hi Hl Hu).
Qed.

Lemma unique_id_token_returns_record_witness :
  discovery_report (world_with report_bob 100 90)
  = Some {| mtime := 90; infos := report_bob |}
  /\ String.length "aa11bb22cc33" = 12%nat
  /\ int_of_str "aa11bb22cc33" = Raise ValueError
  /\ records_with_id "aa11bb22cc33" report_bob = [bob]
  /\ returned (_get_receiver_info (RStr "aa11bb22cc33")
                 (world_with report_bob 100 90))
     = Return (Some bob).
Proof.
  repeat (split; [reflexivity|]).
  apply (unique_id_token_returns_record (world_with report_bob 100 90)
           {| mtime := 90; infos := report_bob |} "aa11bb22cc33" bob);
    reflexivity.
Defined.

(** C8. A report file modified more than 60 seconds ago makes the call log
    the staleness warning first; the file is still loaded and the lookup
    goes on exactly as for a fresh report: same value returned, same
    further log lines. *)
Theorem stale_report_warns_but_resolves
        (receiver : receiver_t) (R : list PeerRecord) (t mt t' mt' : Q) :
  (60 < t - mt)%Q ->
  (t' - mt' <= 60)%Q ->
  let stale := _get_receiver_info receiver (world_with R t mt) in
  let fresh := _get_receiver_info receiver (world_with R t' mt') in
  returned stale = returned fresh
  /\ receiver_after stale = receiver_after fresh
  /\ logged stale = Log WARNING (MsgOldReport (t - mt)) :: logged fresh
  /\ returned stale = returned (resolve receiver R).
Proof.
  intros Hs Hf stale fresh. subst stale fresh.
  unfold _get_receiver_info, world_with.
  cbn [discovery_report now mtime infos returned receiver_after logged].
  rewrite (stale_is_older _ Hs), (fresh_is_not_older _ Hf).
  repeat split.
Qed.

Lemma stale_report_warns_but_resolves_witness :
  (60 < 161 - 100)%Q /\ (105 - 100 <= 60)%Q
  /\ returned (_get_receiver_info (RStr "Bob") (world_with report_bob 161 100))
     = returned (_get_receiver_info (RStr "Bob") (world_with report_bob 105 100))
  /\ receiver_after (_get_receiver_info (RStr "Bob") (world_with report_bob 161 100))
     = receiver_after (_get_receiver_info (RStr "Bob") (world_with report_bob 105 100))
  /\ logged (_get_receiver_info (RStr "Bob") (world_with report_bob 161 100))
     = Log WARNING (MsgOldReport (161 - 100))
         :: logged (_get_receiver_info (RStr "Bob") (world_with report_bob 105 100))
  /\ returned (_get_receiver_info (RStr "Bob") (world_with report_bob 161 100))
     = returned (resolve (RStr "Bob") report_bob).
Proof.
  split; [reflexivity|]. split; [discriminate|].
  apply (stale_report_warns_but_resolves (RStr "Bob") report_bob 161 100 105 100);
    [reflexivity | discriminate].
Defined.

(** C9. On the one-record report of the specification the tokens ["0"],
    ["aa11bb22cc33"] and ["Bob"] all resolve, and to the same record. *)
Theorem three_tiers_agree_on_bob (t mt : Q) :
  returned (_get_receiver_info (RStr "0") (world_with report_bob t mt))
  = Return (Some bob)
  /\ returned (_get_receiver_info (RStr "aa11bb22cc33")
                 (world_with report_bob t mt))
     = Return (Some bob)
  /\ returned (_get_receiver_info (RStr "Bob") (world_with report_bob t mt))
     = Return (Some bob).
Proof. repeat split. Qed.

(** C10. For every non-empty report, the token ["-1"] resolves to the last
    record: the index tier takes a negative integer as a position counted
    from the end. *)
Theorem minus_one_returns_last_record (w : world) (f : report_file) :
  discovery_report w = Some f ->
  infos f <> [] ->
  exists front info,
    infos f = front ++ [info]
    /\ returned (_get_receiver_info (RStr "-1") w) = Return (Some info).
Proof.
  intros Hf Hne.
  destruct (exists_last Hne) as (front & info & E).
  exists front, info. split; [exact E|].
  unfold _get_receiver_info. rewrite Hf. cbn [returned].
  rewrite (resolve_index_hit (RStr "-1") (infos f) (-1) info);
    [reflexivity | reflexivity |].
  rewrite E. apply list_getitem_last.
Qed.

Lemma minus_one_returns_last_record_witness :
  discovery_report (world_with report_bob 100 90)
  = Some {| mtime := 90; infos := report_bob |}
  /\ report_bob <> []
  /\ exists front info,
      report_bob = front ++ [info]
      /\ returned (_get_receiver_info (RStr "-1")
                     (world_with report_bob 100 90))
         = Return (Some info).
Proof.
  split; [reflexivity|]. split; [discriminate|].
  apply (minus_one_returns_last_record (world_with report_bob 100 90)
           {| mtime := 90; infos := report_bob |});
    [reflexivity | discriminate].
Defined.

End ResolverClaims.

(** ** The peer probe and the catalogue *)

Module CoordinatorFacts.
Import PyInt Probe Coordinator Samples.

(** Unfold the next scheduler step of a run. *)
Ltac next_step :=
  unfold sched_step at 1;
  cbn [threads store lookup list_lookup thread_step insert list_insert].

Section WithEnvironment.

Variable M : Z.
Variable client : string -> Z -> outcome (option string).

Lemma network_calls_app (tr1 tr2 : list event) :
  network_calls (tr1 ++ tr2) = (network_calls tr1 + network_calls tr2)%nat.
Proof.
  induction tr1 as [|e tr1 IH]; [reflexivity|].
  destruct e; cbn [app network_calls]; now rewrite IH.
Qed.

Lemma reported_indices_app (tr1 tr2 : list event) :
  reported_indices (tr1 ++ tr2) = reported_indices tr1 ++ reported_indices tr2.
Proof.
  induction tr1 as [|e tr1 IH]; [reflexivity|].
  destruct e as [l m|a p]; [destruct m|]; cbn [app reported_indices];
    now rewrite IH.
Qed.

(** A record without address is dropped at line 238. *)
Lemma probe_without_address (info : ServiceRecord) :
  si_parsed_addresses info = [] ->
  probe M client info = ([Log WARNING (MsgMissingAddress info)], Return None).
Proof. intros H. unfold probe. now rewrite H. Qed.

(** Lines 234-261 announce no index. *)
Lemma probe_reports_no_index (info : ServiceRecord) :
  reported_indices (fst (probe M client info)) = [].
Proof.
  unfold probe. destruct (si_parsed_addresses info) as [|a rest]; [reflexivity|].
  destruct (read_flags M info) as [fl|e]; [|reflexivity].
  destruct (Z.land fl M =? 0); [reflexivity|].
  destruct (client a (si_port info)) as [n|[]]; reflexivity.
Qed.

(** Without a [flags] property the mask itself is taken as the flags. *)
Lemma read_flags_absent (info : ServiceRecord) :
  si_properties info !! "flags" = None -> read_flags M info = Return M.
Proof. intros H. unfold read_flags. now rewrite H. Qed.

(** The line logged with the lock held is no network call. *)
Lemma report_line_is_no_call (l : locals) (index : nat) :
  network_calls [report_line l index] = 0%nat.
Proof. unfold report_line. now destruct (receiver_name l). Qed.

(** With the lock free the call returns; its trace is the old one, then
    the events of lines 234-261, then at most the line of 274-277. *)
Lemma _send_discover_trace (info : ServiceRecord) (s : shared)
      (evs : list event) (r : outcome (option locals)) :
  lock s = false ->
  probe M client info = (evs, r) ->
  exists r' s' last,
    _send_discover M client info s = Some (r', s')
    /\ trace s' = trace s ++ evs ++ last
    /\ network_calls last = 0%nat.
Proof.
  intros Hl Hp. unfold _send_discover. rewrite Hp.
  destruct r as [[l|]|e].
  - cbn [emit lock]. rewrite Hl.
    exists (Return tt), (set_lock false
      (emit [report_line l (List.length (discover s))]
         (append (node_info l) (set_lock true (emit evs s))))),
      [report_line l (List.length (discover s))].
    split; [reflexivity|]. split; [|apply report_line_is_no_call].
    cbn [trace emit set_lock append]. now rewrite <- app_assoc.
  - exists (Return tt), (emit evs s), []. split; [reflexivity|].
    split; [|reflexivity]. cbn [trace emit]. now rewrite app_nil_r.
  - exists (Raise e), (emit evs s), []. split; [reflexivity|].
    split; [|reflexivity]. cbn [trace emit]. now rewrite app_nil_r.
Qed.

(** Without a [flags] property, and with a non-zero mask, lines 252-258
    make the discovery call to the first address. *)
Lemma probe_without_flags (info : ServiceRecord) (a : string) (rest : list string) :
  M <> 0 ->
  si_parsed_addresses info = a :: rest ->
  si_properties info !! "flags" = None ->
  exists r,
    probe M client info
    = ([Log DEBUG (MsgServiceFound (si_server info) a (si_port info)
                     (split_dot_head (si_name info)));
        SendDiscover a (si_port info)], r).
Proof.
  intros HM Ha Hp. unfold probe.
  rewrite Ha, (read_flags_absent info Hp), Z.land_diag.
  destruct (Z.eqb_spec M 0) as [|_]; [contradiction|].
  destruct (client a (si_port info)) as [n|[]]; eexists; reflexivity.
Qed.

(** A thread that nobody interrupts does what [_send_discover] does. *)
Lemma run_alone (info : ServiceRecord) (s s' : shared) (r : outcome unit) :
  _send_discover M client info s = Some (r, s') ->
  exists n,
    run M client (repeat 0%nat n) {| threads := [Line234 info]; store := s |}
    = Some {| threads := [Finished r]; store := s' |}.
Proof.
  unfold _send_discover.
  destruct (probe M client info) as [evs [[l|]|e]] eqn:Ep.
  - destruct (lock (emit evs s)) eqn:El; [discriminate|].
    intros H. injection H as <- <-. exists 6%nat.
    cbn [repeat run]. next_step. rewrite Ep.
    do 2 next_step. cbn [lock emit] in El |- *. rewrite El.
    do 3 next_step. reflexivity.
  - intros H. injection H as <- <-. exists 1%nat.
    cbn [repeat run]. next_step. rewrite Ep. reflexivity.
  - intros H. injection H as <- <-. exists 1%nat.
    cbn [repeat run]. next_step. rewrite Ep. reflexivity.
Qed.

(** Run alone, a probe that gets a name announces the position at which
    its record is appended. *)
Lemma alone_reports_own_position (info : ServiceRecord) (s : shared)
      (evs : list event) (l : locals) (n : string) :
  lock s = false ->
  probe M client info = (evs, Return (Some l)) ->
  receiver_name l = Some n ->
  exists s',
    _send_discover M client info s = Some (Return tt, s')
    /\ lock s' = false
    /\ discover s' = discover s ++ [node_info l]
    /\ reported_indices (trace s')
       = reported_indices (trace s) ++ [List.length (discover s)].
Proof.
  intros Hl Hp Hn. unfold _send_discover. rewrite Hp.
  cbn [emit lock]. rewrite Hl. eexists. split; [reflexivity|].
  split; [reflexivity|]. split; [reflexivity|].
  cbn [trace emit set_lock append discover].
  assert (Hi := probe_reports_no_index info). rewrite Hp in Hi. cbn [fst] in Hi.
  rewrite !reported_indices_app, Hi, app_nil_r.
  unfold report_line. now rewrite Hn.
Qed.

(** *** Mutual exclusion: lines 273-278 are one critical section *)

Lemma lock_holders_insert (ts : list pc) (i : nat) (t t' : pc) :
  ts !! i = Some t ->
  (lock_holders (<[i := t']> ts) + (if holds_lock t then 1 else 0)
   = lock_holders ts + (if holds_lock t' then 1 else 0))%nat.
Proof.
  unfold lock_holders. revert i.
  induction ts as [|x ts IH]; intros i Hi; [discriminate|].
  destruct i as [|i].
  - injection Hi as ->. cbn [insert list_insert List.filter].
    destruct (holds_lock t), (holds_lock t'); cbn [List.length]; lia.
  - specialize (IH i Hi).
    change (<[S i := t']> (x :: ts)) with (x :: <[i := t']> ts).
    cbn [List.filter].
    destruct (holds_lock x), (holds_lock t), (holds_lock t');
      cbn [List.length]; lia.
Qed.

Lemma sched_step_exclusive (i : nat) (sys sys' : system) :
  exclusive sys -> sched_step M client i sys = Some sys' -> exclusive sys'.
Proof.
  unfold exclusive, sched_step. intros Hinv.
  destruct (threads sys !! i) as [t|] eqn:Et; [|discriminate].
  destruct (thread_step M client t (store sys)) as [[t' s']|] eqn:Es;
    [|discriminate].
  intros H. injection H as <-. cbn [threads store].
  assert (Hc := lock_holders_insert (threads sys) i t t' Et).
  destruct t; cbn [thread_step] in Es.
  - destruct (probe M client info) as [evs [[l|]|e]];
      injection Es as <- <-; cbn [holds_lock emit lock] in Hc |- *; lia.
  - injection Es as <- <-. cbn [holds_lock] in Hc. lia.
  - destruct (lock (store sys)) eqn:El; [discriminate|].
    injection Es as <- <-. cbn [holds_lock set_lock lock] in Hc |- *. lia.
  - injection Es as <- <-. cbn [holds_lock append lock] in Hc |- *. lia.
  - injection Es as <- <-. cbn [holds_lock emit lock] in Hc |- *. lia.
  - injection Es as <- <-. cbn [holds_lock set_lock lock] in Hc |- *.
    destruct (lock (store sys)); lia.
  - discriminate.
Qed.

Lemma launch_exclusive (announced : list ServiceRecord) :
  exclusive (launch announced).
Proof.
  unfold exclusive, launch, lock_holders. cbn [threads store lock initial].
  induction announced as [|info rest IH]; [reflexivity|exact IH].
Qed.

(** Whatever the schedule, at most one probe is between [acquire] and
    [release]: the append and the log line of a probe are not interleaved
    with those of another. *)
Lemma mutual_exclusion (schedule : list nat) (announced : list ServiceRecord)
      (sys : system) :
  run M client schedule (launch announced) = Some sys ->
  (lock_holders (threads sys) <= 1)%nat.
Proof.
  intros Hrun.
  assert (Hinv : exclusive sys).
  { revert Hrun. generalize (launch_exclusive announced).
    generalize (launch announced). induction schedule as [|i rest IH];
      intros sys0 H0 Hrun.
    - injection Hrun as <-. exact H0.
    - cbn [run] in Hrun.
      destruct (sched_step M client i sys0) as [sys1|] eqn:E1; [|discriminate].
      exact (IH sys1 (sched_step_exclusive i sys0 sys1 H0 E1) Hrun). }
  unfold exclusive in Hinv. destruct (lock (store sys)); lia.
Qed.

End WithEnvironment.

End CoordinatorFacts.

Module CoordinatorClaims.
Import PyInt Probe Coordinator Samples CoordinatorFacts.

(** C4, as the code has it.  A probe of a record with an address whose
    flags can be read, against a peer that either answers or times out,
    returns normally and appends one record; its [discoverable] field is
    true exactly when the discovery call was made and its answer carried a
    receiver name, whatever that name is; after a timeout the record is
    there with no name and [discoverable] false. *)
Theorem discoverable_iff_name_received
        (M : Z) (client : string -> Z -> outcome (option string))
        (info : ServiceRecord) (a : string) (rest : list string)
        (fl : Z) (s : shared) :
  lock s = false ->
  si_parsed_addresses info = a :: rest ->
  read_flags M info = Return fl ->
  (forall e, client a (si_port info) = Raise e -> e = TimeoutError) ->
  exists s' rec,
    _send_discover M client info s = Some (Return tt, s')
    /\ discover s' = discover s ++ [rec]
    /\ (pr_discoverable rec = true <->
          exists n, Z.land fl M <> 0
                    /\ client a (si_port info) = Return (Some n))
    /\ (Z.land fl M <> 0 -> client a (si_port info) = Raise TimeoutError ->
          pr_discoverable rec = false /\ pr_name rec = None).
Proof.
  intros Hl Ha Hf Hc. unfold _send_discover, probe. rewrite Ha, Hf.
  destruct (Z.eqb_spec (Z.land fl M) 0) as [E0|E0].
  - cbn [emit lock]. rewrite Hl. eexists _, _.
    split; [reflexivity|]. split; [reflexivity|]. split; [|intros; lia].
    cbn. split; [discriminate|]. intros (n & Hn & _). contradiction.
  - destruct (client a (si_port info)) as [[n|]|e] eqn:Ec.
    + cbn [emit lock]. rewrite Hl. eexists _, _.
      split; [reflexivity|]. split; [reflexivity|]. split; [|discriminate].
      cbn. split; [intros _; exists n; now split | reflexivity].
    + cbn [emit lock]. rewrite Hl. eexists _, _.
      split; [reflexivity|]. split; [reflexivity|]. split; [|discriminate].
      cbn. split; [discriminate|]. intros (n & _ & Hn). discriminate Hn.
    + rewrite (Hc e eq_refl). cbn [emit lock]. rewrite Hl. eexists _, _.
      split; [reflexivity|]. split; [reflexivity|].
      split; [|intros; split; reflexivity].
      cbn. split; [discriminate|]. intros (n & _ & Hn). discriminate Hn.
Qed.

Lemma discoverable_iff_name_received_witness :
  lock initial = false
  /\ si_parsed_addresses service_b = "fe80::2" :: []
  /\ read_flags 128 service_b = Return 128
  /\ (forall e, times_out "fe80::2" (si_port service_b) = Raise e ->
        e = TimeoutError)
  /\ exists s' rec,
      _send_discover 128 times_out service_b initial = Some (Return tt, s')
      /\ discover s' = discover initial ++ [rec]
      /\ (pr_discoverable rec = true <->
            exists n, Z.land 128 128 <> 0
                      /\ times_out "fe80::2" (si_port service_b)
                         = Return (Some n))
      /\ (Z.land 128 128 <> 0 ->
          times_out "fe80::2" (si_port service_b) = Raise TimeoutError ->
          pr_discoverable rec = false /\ pr_name rec = None).
Proof.
  assert (H : forall e, times_out "fe80::2" (si_port service_b) = Raise e ->
                        e = TimeoutError).
  { intros e He. injection He as <-. reflexivity. }
  split; [reflexivity|]. split; [reflexivity|]. split; [reflexivity|].
  split; [exact H|].
  apply (discoverable_iff_name_received 128 times_out service_b
           "fe80::2" [] 128 initial);
    [reflexivity | reflexivity | reflexivity | exact H].
Defined.

(** C4 as stated fails: a peer that answers with the empty string as its
    name is recorded with [discoverable] true. *)
Lemma empty_name_is_discoverable :
  answers "" "fe80::2" (si_port service_b) = Return (Some "")
  /\ exists s' rec,
      _send_discover 128 (answers "") service_b initial = Some (Return tt, s')
      /\ discover s' = [rec]
      /\ pr_name rec = Some ""
      /\ pr_discoverable rec = true
      /\ ~ (pr_discoverable rec = true <->
             exists n, n <> ""
                       /\ answers "" "fe80::2" (si_port service_b)
                          = Return (Some n)).
Proof.
  split; [reflexivity|]. eexists _, _.
  split; [reflexivity|]. split; [reflexivity|]. split; [reflexivity|].
  split; [reflexivity|].
  intros [H _]. destruct (H eq_refl) as (n & Hn & E).
  injection E as <-. now apply Hn.
Qed.

(** C5. Past the address guard of lines 234-238, and the mask being
    non-zero: for a record with no [flags] property the mask is taken as
    the flags and the discovery call is made, to the first address; for a
    record whose [flags] value has the mask bits clear no call is made,
    and the record appended has no name. *)
Theorem flags_decide_the_network_call
        (M : Z) (client : string -> Z -> outcome (option string))
        (info : ServiceRecord) (s : shared) :
  M <> 0 ->
  lock s = false ->
  (forall a rest,
     si_parsed_addresses info = a :: rest ->
     si_properties info !! "flags" = None ->
     read_flags M info = Return M
     /\ exists r s',
         _send_discover M client info s = Some (r, s')
         /\ In (SendDiscover a (si_port info)) (trace s')
         /\ network_calls (trace s') = S (network_calls (trace s)))
  /\ (forall b fl,
        si_properties info !! "flags" = Some b ->
        int_of_bytes b = Return fl ->
        Z.land fl M = 0 ->
        exists s',
          _send_discover M client info s = Some (Return tt, s')
          /\ network_calls (trace s') = network_calls (trace s)
          /\ match si_parsed_addresses info with
             | [] => discover s' = discover s
             | _ :: _ =>
                 exists rec,
                   discover s' = discover s ++ [rec]
                   /\ pr_name rec = None
                   /\ pr_discoverable rec = false
             end).
Proof.
  intros HM Hl. split.
  - intros a rest Ha Hp. split; [now apply read_flags_absent|].
    destruct (probe_without_flags M client info a rest HM Ha Hp) as [r0 Hr].
    destruct (_send_discover_trace M client info s _ r0 Hl Hr)
      as (r & s' & last & Hs & Ht & Hn).
    exists r, s'. split; [exact Hs|]. rewrite Ht. split.
    + rewrite !in_app_iff. right. left. right. now left.
    + rewrite !network_calls_app, Hn. cbn. lia.
  - intros b fl Hp Hb Hz. unfold _send_discover, probe, read_flags.
    destruct (si_parsed_addresses info) as [|a rest].
    + eexists. split; [reflexivity|].
      cbn [trace emit discover]. rewrite network_calls_app. cbn.
      split; [lia | reflexivity].
    + rewrite Hp, Hb, Hz. cbn [Z.eqb emit lock]. rewrite Hl.
      eexists. split; [reflexivity|].
      cbn [trace emit set_lock append discover]. rewrite !network_calls_app.
      cbn. split; [lia|]. eexists. repeat split.
Qed.

Lemma flags_decide_the_network_call_witness :
  128 <> 0
  /\ lock initial = false
  /\ si_parsed_addresses service_b = "fe80::2" :: []
  /\ si_properties service_b !! "flags" = None
  /\ (exists r s',
        _send_discover 128 (answers "Bob") service_b initial = Some (r, s')
        /\ In (SendDiscover "fe80::2" (si_port service_b)) (trace s')
        /\ network_calls (trace s') = S (network_calls (trace initial)))
  /\ si_properties service_a !! "flags" = Some "1"
  /\ int_of_bytes "1" = Return 1
  /\ Z.land 1 128 = 0
  /\ (exists s',
        _send_discover 128 (answers "Bob") service_a initial
        = Some (Return tt, s')
        /\ network_calls (trace s') = network_calls (trace initial)
        /\ exists rec,
            discover s' = discover initial ++ [rec]
            /\ pr_name rec = None
            /\ pr_discoverable rec = false).
Proof.
  assert (HM : 128 <> 0) by discriminate.
  split; [exact HM|]. split; [reflexivity|]. split; [reflexivity|].
  split; [reflexivity|]. split.
  { destruct (flags_decide_the_network_call 128 (answers "Bob") service_b
                initial HM eq_refl) as [Hb _].
    destruct (Hb "fe80::2" [] eq_refl eq_refl) as [_ Hcall]. exact Hcall. }
  split; [reflexivity|]. split; [reflexivity|]. split; [reflexivity|].
  destruct (flags_decide_the_network_call 128 (answers "Bob") service_a
              initial HM eq_refl) as [_ Ha].
  exact (Ha "1" 1 eq_refl eq_refl eq_refl).
Defined.

(** C7. A service record with no address makes the probe log a warning and
    return: nothing is appended, the catalogue and the lock are as before,
    and the thread ends without an exception. *)
Theorem missing_address_drops_peer
        (M : Z) (client : string -> Z -> outcome (option string))
        (info : ServiceRecord) (s : shared) :
  si_parsed_addresses info = [] ->
  exists s',
    _send_discover M client info s = Some (Return tt, s')
    /\ thread_step M client (Line234 info) s = Some (Finished (Return tt), s')
    /\ discover s' = discover s
    /\ lock s' = lock s
    /\ trace s' = trace s ++ [Log WARNING (MsgMissingAddress info)].
Proof.
  intros Ha. exists (emit [Log WARNING (MsgMissingAddress info)] s).
  unfold _send_discover, thread_step.
  rewrite (probe_without_address M client info Ha). repeat split.
Qed.

Lemma missing_address_drops_peer_witness :
  si_parsed_addresses service_without_address = []
  /\ exists s',
      _send_discover 128 (answers "Bob") service_without_address initial
      = Some (Return tt, s')
      /\ thread_step 128 (answers "Bob") (Line234 service_without_address)
           initial
         = Some (Finished (Return tt), s')
      /\ discover s' = discover initial
      /\ lock s' = lock initial
      /\ trace s' = trace initial
                      ++ [Log WARNING (MsgMissingAddress service_without_address)].
Proof.
  split; [reflexivity|].
  apply (missing_address_drops_peer 128 (answers "Bob")
           service_without_address initial).
  reflexivity.
Defined.

(** C6, evaluated on the code.  Line 263 reads the length of the catalogue
    before line 272 takes the lock.  Two probes that both get a name can
    therefore be scheduled so that both read length 0: both end normally,
    the catalogue holds the two records, and both [Found] lines announce
    index 0. *)
Theorem racing_probes_report_one_index_twice
        (M : Z) (client : string -> Z -> outcome (option string))
        (info1 info2 : ServiceRecord) (evs1 evs2 : list event)
        (l1 l2 : locals) (n1 n2 : string) :
  probe M client info1 = (evs1, Return (Some l1)) ->
  receiver_name l1 = Some n1 ->
  probe M client info2 = (evs2, Return (Some l2)) ->
  receiver_name l2 = Some n2 ->
  exists sys,
    run M client [0; 1; 0; 1; 0; 0; 0; 0; 1; 1; 1; 1]%nat
      (launch [info1; info2]) = Some sys
    /\ threads sys = [Finished (Return tt); Finished (Return tt)]
    /\ lock (store sys) = false
    /\ discover (store sys) = [node_info l1; node_info l2]
    /\ reported_indices (trace (store sys)) = [0; 0]%nat.
Proof.
  intros Hp1 Hn1 Hp2 Hn2.
  assert (Hi1 := probe_reports_no_index M client info1).
  assert (Hi2 := probe_reports_no_index M client info2).
  rewrite Hp1 in Hi1. rewrite Hp2 in Hi2. cbn [fst] in Hi1, Hi2.
  eexists. split.
  - unfold launch. cbn [map run].
    next_step. rewrite Hp1. next_step. rewrite Hp2.
    do 2 next_step. cbn [lock emit initial].
    do 4 next_step. cbn [lock emit initial set_lock append].
    do 4 next_step. reflexivity.
  - split; [reflexivity|]. split; [reflexivity|]. split; [reflexivity|].
    cbn [store trace emit set_lock append initial discover List.length app].
    rewrite !reported_indices_app, Hi1, Hi2.
    unfold report_line. rewrite Hn1, Hn2. reflexivity.
Qed.

Lemma racing_probes_report_one_index_twice_witness :
  probe 128 (answers "Bob") service_b = (events_b, Return (Some (locals_b "Bob")))
  /\ receiver_name (locals_b "Bob") = Some "Bob"
  /\ exists sys,
      run 128 (answers "Bob") [0; 1; 0; 1; 0; 0; 0; 0; 1; 1; 1; 1]%nat
        (launch [service_b; service_b]) = Some sys
      /\ threads sys = [Finished (Return tt); Finished (Return tt)]
      /\ lock (store sys) = false
      /\ discover (store sys)
         = [node_info (locals_b "Bob"); node_info (locals_b "Bob")]
      /\ reported_indices (trace (store sys)) = [0; 0]%nat.
Proof.
  split; [reflexivity|]. split; [reflexivity|].
  apply (racing_probes_report_one_index_twice 128 (answers "Bob")
           service_b service_b events_b events_b
           (locals_b "Bob") (locals_b "Bob") "Bob" "Bob");
    reflexivity.
Defined.

End CoordinatorClaims.

(** ** Discovery runs *)

Module FindFacts.
Import PyInt Probe Coordinator Find Samples CoordinatorFacts.

Section WithEnvironment.

Variable M : Z.
Variable client : string -> Z -> outcome (option string).

(** Counting the threads with a property, when one thread moves. *)
Lemma count_insert (p : pc -> bool) (ts : list pc) (i : nat) (t t' : pc) :
  ts !! i = Some t ->
  (List.length (List.filter p (<[i := t']> ts)) + (if p t then 1 else 0)
   = List.length (List.filter p ts) + (if p t' then 1 else 0))%nat.
Proof.
  revert i. induction ts as [|x ts IH]; intros i Hi; [discriminate|].
  destruct i as [|i].
  - injection Hi as ->. cbn [insert list_insert List.filter].
    destruct (p t), (p t'); cbn [List.length]; lia.
  - specialize (IH i Hi).
    change (<[S i := t']> (x :: ts)) with (x :: <[i := t']> ts).
    cbn [List.filter].
    destruct (p x), (p t), (p t'); cbn [List.length]; lia.
Qed.

Lemma count_snoc (p : pc -> bool) (ts : list pc) (t : pc) :
  List.length (List.filter p (ts ++ [t]))
  = (List.length (List.filter p ts) + (if p t then 1 else 0))%nat.
Proof.
  rewrite List.filter_app, List.length_app. cbn [List.filter].
  now destruct (p t).
Qed.

Lemma count_positive (p : pc -> bool) (ts : list pc) :
  (0 < List.length (List.filter p ts))%nat ->
  exists i t, ts !! i = Some t /\ p t = true.
Proof.
  induction ts as [|x ts IH]; cbn [List.filter]; [cbn; lia|].
  destruct (p x) eqn:Ex.
  - intros _. exists 0%nat, x. now split.
  - intros H. destruct (IH H) as (i & t & Hi & Ht).
    exists (S i), t. now split.
Qed.

(** What a scheduler step is made of. *)
Lemma sched_step_inv (i : nat) (sys sys' : system) :
  sched_step M client i sys = Some sys' ->
  exists t t' s',
    threads sys !! i = Some t
    /\ thread_step M client t (store sys) = Some (t', s')
    /\ sys' = {| threads := <[i := t']> (threads sys); store := s' |}.
Proof.
  unfold sched_step. destruct (threads sys !! i) as [t|] eqn:Et; [|discriminate].
  destruct (thread_step M client t (store sys)) as [[t' s']|] eqn:Es;
    [|discriminate].
  intros H. injection H as <-. exists t, t', s'. repeat split; assumption.
Qed.

(** A property kept by every announcement of a service that is [good] and
    by every step holds all along a run that announces good services. *)
Lemma find_run_invariant (good : ServiceRecord -> Prop) (P : system -> Prop) :
  (forall info sys, good info -> P sys -> P (_found_receiver info sys)) ->
  (forall i sys sys', P sys -> sched_step M client i sys = Some sys' -> P sys') ->
  forall occs sys sys',
    (forall info, In info (announcements occs) -> good info) ->
    P sys -> find_run M client occs sys = Some sys' -> P sys'.
Proof.
  intros Hann Hstep occs.
  induction occs as [|o rest IH]; intros sys sys' Hgood HP Hrun.
  - injection Hrun as <-. exact HP.
  - cbn [find_run] in Hrun.
    destruct (occur M client o sys) as [sys1|] eqn:Eo; [|discriminate].
    destruct o as [info|i]; cbn [occur announcements] in Eo, Hgood.
    + injection Eo as <-.
      apply (IH (_found_receiver info sys) sys'); [| |exact Hrun].
      * intros x Hx. apply Hgood. now right.
      * apply Hann; [|exact HP]. apply Hgood. now left.
    + apply (IH sys1 sys'); [exact Hgood| |exact Hrun].
      now apply (Hstep i sys).
Qed.

(** Case analysis on the thread that makes a step [H]. *)
Ltac thread_cases t H :=
  destruct t; cbn [thread_step] in H;
  [ match type of H with
    | context [probe ?m ?c ?info] =>
        let evs := fresh "evs" in
        let l := fresh "l" in
        let e := fresh "e" in
        let Ep := fresh "Ep" in
        destruct (probe m c info) as [evs [[l|]|e]] eqn:Ep
    end
  | | match type of H with
      | context [lock ?s] =>
          let El := fresh "El" in
          destruct (lock s) eqn:El; [discriminate H|]
      end
  | | | | discriminate H ];
  injection H as <- <-.

(** Every thread was started by one announcement. *)
Lemma find_run_threads (occs : list occurrence) :
  forall sys sys',
    find_run M client occs sys = Some sys' ->
    List.length (threads sys')
    = (List.length (threads sys) + List.length (announcements occs))%nat.
Proof.
  induction occs as [|o rest IH]; intros sys sys' Hrun.
  - injection Hrun as <-. cbn. lia.
  - cbn [find_run] in Hrun.
    destruct (occur M client o sys) as [sys1|] eqn:Eo; [|discriminate].
    rewrite (IH sys1 sys' Hrun).
    destruct o as [info|i]; cbn [occur announcements] in Eo |- *.
    + injection Eo as <-. cbn [_found_receiver threads].
      rewrite List.length_app. cbn. lia.
    + destruct (sched_step_inv i sys sys1 Eo) as (t & t' & s' & _ & _ & ->).
      cbn [threads]. rewrite length_insert. lia.
Qed.

(** The catalogue never has more records than threads that are past
    line 273 or have ended. *)
Lemma records_at_most_past_append (occs : list occurrence) (sys : system) :
  find_run M client occs started = Some sys ->
  (List.length (discover (store sys))
   <= List.length (List.filter past_append (threads sys)))%nat.
Proof.
  apply (find_run_invariant (fun _ => True)
           (fun sys => (List.length (discover (store sys))
                        <= List.length (List.filter past_append (threads sys)))%nat)).
  - intros info sys0 _ H. cbn [_found_receiver threads store].
    rewrite count_snoc. cbn [past_append]. lia.
  - intros i sys0 sys1 H Hs.
    destruct (sched_step_inv i sys0 sys1 Hs) as (t & t' & s' & Hi & Ht & ->).
    cbn [threads store].
    assert (Hc := count_insert past_append (threads sys0) i t t' Hi).
    thread_cases t Ht;
      cbn [past_append emit set_lock append discover] in Hc |- *;
      rewrite ?List.length_app; cbn [List.length]; lia.
  - intros; exact I.
  - cbn. lia.
Qed.

(** When every announced service is probed with success, no thread ends
    before line 273, and the records are exactly as many as the threads
    past that line. *)
Lemma records_are_past_append (occs : list occurrence) (sys : system) :
  (forall info, In info (announcements occs) -> (probe_succeeds M client) info) ->
  find_run M client occs started = Some sys ->
  List.length (discover (store sys))
  = List.length (List.filter past_append (threads sys)).
Proof.
  intros Hgood Hrun.
  enough (H : Forall (thread_succeeds M client) (threads sys)
              /\ List.length (discover (store sys))
                 = List.length (List.filter past_append (threads sys)))
    by apply H.
  apply (find_run_invariant (probe_succeeds M client)
           (fun sys => Forall (thread_succeeds M client) (threads sys)
                       /\ List.length (discover (store sys))
                          = List.length (List.filter past_append (threads sys)))
           ) with (occs := occs) (sys := started); try assumption.
  - intros info sys0 Hi [HF H]. cbn [_found_receiver threads store]. split.
    + apply Forall_app. split; [exact HF|]. now constructor.
    + rewrite count_snoc. cbn [past_append]. lia.
  - intros i sys0 sys1 [HF H] Hs.
    destruct (sched_step_inv i sys0 sys1 Hs) as (t & t' & s' & Hi & Ht & ->).
    cbn [threads store].
    assert (Hc := count_insert past_append (threads sys0) i t t' Hi).
    assert (Hgt := Forall_lookup_1 _ _ _ _ HF Hi).
    thread_cases t Ht;
      cbn [thread_succeeds] in Hgt;
      try (destruct Hgt as (evs' & l' & Hgt); rewrite Hgt in Ep; discriminate Ep);
      (split; [apply Forall_insert; [exact HF|exact I]|]);
      cbn [past_append emit set_lock append discover] in Hc |- *;
      rewrite ?List.length_app; cbn [List.length]; lia.
  - split; [constructor|reflexivity].
Qed.

Lemma all_finished_all_past_append (ts : list pc) :
  forallb is_finished ts = true ->
  List.length (List.filter past_append ts) = List.length ts.
Proof.
  induction ts as [|t ts IH]; [reflexivity|]. cbn [forallb List.filter].
  intros H. apply andb_prop in H as [Ht Hts].
  destruct t; try discriminate Ht. cbn [past_append List.length].
  now rewrite (IH Hts).
Qed.

Lemma find_run_app (occs later : list occurrence) (sys : system) :
  find_run M client (occs ++ later) sys
  = match find_run M client occs sys with
    | Some sys1 => find_run M client later sys1
    | None => None
    end.
Proof.
  revert sys. induction occs as [|o rest IH]; intros sys; [reflexivity|].
  cbn [app find_run]. destruct (occur M client o sys); [apply IH|reflexivity].
Qed.

Lemma find_run_grows (occs : list occurrence) (sys sys' : system) :
  find_run M client occs sys = Some sys' ->
  exists more, discover (store sys') = discover (store sys) ++ more.
Proof.
  intros Hrun.
  apply (find_run_invariant (fun _ => True)
           (fun x => exists more,
                discover (store x) = discover (store sys) ++ more))
    with (occs := occs) (sys := sys); try assumption.
  - intros info sys0 _ H. exact H.
  - intros i sys0 sys1 [more H] Hs.
    destruct (sched_step_inv i sys0 sys1 Hs) as (t & t' & s' & Hi & Ht & ->).
    cbn [store].
    thread_cases t Ht; cbn [emit set_lock append discover];
      try (exists more; exact H).
    exists (more ++ [node_info l]). rewrite H. now rewrite app_assoc.
  - intros; exact I.
  - exists []. now rewrite app_nil_r.
Qed.

Lemma find_run_exclusive (occs : list occurrence) (sys : system) :
  find_run M client occs started = Some sys -> exclusive sys.
Proof.
  apply (find_run_invariant (fun _ => True) exclusive).
  - intros info sys0 _ H. unfold exclusive, lock_holders in *.
    cbn [_found_receiver threads store]. rewrite count_snoc.
    cbn [holds_lock]. rewrite <- H. lia.
  - intros i sys0 sys1 H Hs. exact (sched_step_exclusive M client i sys0 sys1 H Hs).
  - intros; exact I.
  - reflexivity.
Qed.

Lemma report_line_indices (l : locals) (index n : nat) :
  (index < n)%nat ->
  Forall (fun k => (k < n)%nat) (reported_indices [report_line l index]).
Proof.
  intros H. unfold report_line. destruct (receiver_name l); cbn.
  - constructor; [exact H|constructor].
  - constructor.
Qed.

Lemma find_run_indices (occs : list occurrence) (sys : system) :
  find_run M client occs started = Some sys ->
  Forall (fun k => (k < List.length (discover (store sys)))%nat)
         (reported_indices (trace (store sys)))
  /\ Forall (index_in_reach (List.length (discover (store sys)))) (threads sys).
Proof.
  apply (find_run_invariant (fun _ => True)
           (fun sys =>
              Forall (fun k => (k < List.length (discover (store sys)))%nat)
                     (reported_indices (trace (store sys)))
              /\ Forall (index_in_reach (List.length (discover (store sys))))
                        (threads sys))).
  - intros info sys0 _ [H1 H2]. cbn [_found_receiver threads store].
    split; [exact H1|]. apply Forall_app. split; [exact H2|].
    constructor; [exact I|constructor].
  - intros i sys0 sys1 [H1 H2] Hs.
    destruct (sched_step_inv i sys0 sys1 Hs) as (t & t' & s' & Hi & Ht & ->).
    cbn [threads store].
    assert (Hti := Forall_lookup_1 _ _ _ _ H2 Hi).
    thread_cases t Ht;
      cbn [emit set_lock append discover trace index_in_reach] in Hti |- *.
    + assert (Hn := probe_reports_no_index M client info).
      rewrite Ep in Hn. cbn [fst] in Hn.
      rewrite reported_indices_app, Hn, app_nil_r.
      split; [exact H1|]. apply Forall_insert; [exact H2|exact I].
    + assert (Hn := probe_reports_no_index M client info).
      rewrite Ep in Hn. cbn [fst] in Hn.
      rewrite reported_indices_app, Hn, app_nil_r.
      split; [exact H1|]. apply Forall_insert; [exact H2|exact I].
    + assert (Hn := probe_reports_no_index M client info).
      rewrite Ep in Hn. cbn [fst] in Hn.
      rewrite reported_indices_app, Hn, app_nil_r.
      split; [exact H1|]. apply Forall_insert; [exact H2|exact I].
    + split; [exact H1|]. apply Forall_insert; [exact H2|].
      cbn [index_in_reach]. lia.
    + split; [exact H1|]. apply Forall_insert; [exact H2|exact Hti].
    + rewrite List.length_app. cbn [List.length]. split.
      * eapply Forall_impl; [exact H1|]. cbn. intros; lia.
      * apply Forall_insert.
        -- eapply Forall_impl; [exact H2|].
           intros x Hx. destruct x; cbn [index_in_reach] in Hx |- *; lia.
        -- cbn [index_in_reach]. lia.
    + rewrite reported_indices_app. split.
      * apply Forall_app. split; [exact H1|].
        now apply report_line_indices.
      * apply Forall_insert; [exact H2|exact I].
    + split; [exact H1|]. apply Forall_insert; [exact H2|exact I].
  - intros; exact I.
  - split; constructor.
Qed.

Lemma find_run_consistent (occs : list occurrence) (sys : system) :
  find_run M client occs started = Some sys ->
  Forall consistent (discover (store sys)).
Proof.
  apply (find_run_invariant (fun _ => True)
           (fun sys => Forall consistent (discover (store sys)))).
  - intros info sys0 _ H. exact H.
  - intros i sys0 sys1 H Hs.
    destruct (sched_step_inv i sys0 sys1 Hs) as (t & t' & s' & Hi & Ht & ->).
    cbn [store].
    thread_cases t Ht; cbn [emit set_lock append discover]; try exact H.
    apply Forall_app. split; [exact H|]. constructor; [|constructor].
    unfold consistent, node_info, discoverable. cbn [pr_discoverable pr_name].
    destruct (receiver_name l); split; congruence.
  - intros; exact I.
  - constructor.
Qed.

End WithEnvironment.

End FindFacts.

Module FindExtras.
Import PyInt Probe Coordinator Find Samples Runs CoordinatorFacts FindFacts.

(** X1. The catalogue only grows at its end: a report written later in a
    discovery run starts with the records of a report written earlier, so
    a record keeps its position. *)
Theorem later_report_extends_earlier
        (M : Z) (client : string -> Z -> outcome (option string))
        (occs later : list occurrence) (t t' : Q) (r r' : find_result) :
  find M client occs t = Some r ->
  find M client (occs ++ later) t' = Some r' ->
  exists more,
    Resolver.infos (report r') = Resolver.infos (report r) ++ more.
Proof.
  unfold find. rewrite find_run_app.
  destruct (find_run M client occs started) as [sys|] eqn:E1; [|discriminate].
  destruct (find_run M client later sys) as [sys'|] eqn:E2; [|discriminate].
  intros H H'. injection H as <-. injection H' as <-.
  cbn [flush report Resolver.infos].
  exact (find_run_grows M client later sys sys' E2).
Qed.

Lemma later_report_extends_earlier_witness :
  exists r r',
    find 128 (answers "Bob") one_probe 10 = Some r
    /\ find 128 (answers "Bob") (one_probe ++ second_probe) 20 = Some r'
    /\ exists more,
        Resolver.infos (report r') = Resolver.infos (report r) ++ more.
Proof.
  eexists _, _. split; [reflexivity|]. split; [reflexivity|].
  apply (later_report_extends_earlier 128 (answers "Bob")
           one_probe second_probe 10 20); reflexivity.
Defined.

(** X2. When the probe of every announced service gets through and every
    thread has finished, the catalogue holds exactly one record per
    announcement, whatever the interleaving. *)
Theorem every_announcement_recorded_once
        (M : Z) (client : string -> Z -> outcome (option string))
        (occs : list occurrence) (sys : system) :
  (forall info, In info (announcements occs) -> probe_succeeds M client info) ->
  find_run M client occs started = Some sys ->
  forallb is_finished (threads sys) = true ->
  List.length (discover (store sys)) = List.length (announcements occs).
Proof.
  intros Hgood Hrun Hfin.
  rewrite (records_are_past_append M client occs sys Hgood Hrun).
  rewrite (all_finished_all_past_append (threads sys) Hfin).
  now rewrite (find_run_threads M client occs started sys Hrun).
Qed.

Lemma every_announcement_recorded_once_witness :
  (forall info, In info (announcements two_racing) ->
                probe_succeeds 128 (answers "Bob") info)
  /\ exists sys,
      find_run 128 (answers "Bob") two_racing started = Some sys
      /\ forallb is_finished (threads sys) = true
      /\ List.length (discover (store sys))
         = List.length (announcements two_racing).
Proof.
  assert (H : forall info, In info (announcements two_racing) ->
                           probe_succeeds 128 (answers "Bob") info).
  { intros info [<-|[<-|[]]]; eexists _, _; reflexivity. }
  split; [exact H|]. eexists. split; [reflexivity|]. split; [reflexivity|].
  apply (every_announcement_recorded_once 128 (answers "Bob") two_racing);
    [exact H | reflexivity | reflexivity].
Defined.

(** X3. At any moment of a discovery run the catalogue holds at most as
    many records as services have been announced. *)
Theorem never_more_records_than_announcements
        (M : Z) (client : string -> Z -> outcome (option string))
        (occs : list occurrence) (sys : system) :
  find_run M client occs started = Some sys ->
  (List.length (discover (store sys)) <= List.length (announcements occs))%nat.
Proof.
  intros Hrun.
  apply (Nat.le_trans _ _ _ (records_at_most_past_append M client occs sys Hrun)).
  apply (Nat.le_trans _ _ _ (List.filter_length_le past_append (threads sys))).
  rewrite (find_run_threads M client occs started sys Hrun). cbn. lia.
Qed.

Lemma never_more_records_than_announcements_witness :
  exists sys,
    find_run 128 (answers "Bob") one_in_flight started = Some sys
    /\ (List.length (discover (store sys))
        <= List.length (announcements one_in_flight))%nat.
Proof.
  eexists. split; [reflexivity|].
  apply (never_more_records_than_announcements 128 (answers "Bob")
           one_in_flight).
  reflexivity.
Defined.

(** X4. All along a discovery run at most one thread is between
    [acquire] and [release], and the lock is held exactly when there is
    one. *)
Theorem one_thread_in_the_critical_section
        (M : Z) (client : string -> Z -> outcome (option string))
        (occs : list occurrence) (sys : system) :
  find_run M client occs started = Some sys ->
  (lock_holders (threads sys) <= 1)%nat
  /\ (lock (store sys) = true <-> lock_holders (threads sys) = 1%nat).
Proof.
  intros Hrun. assert (H := find_run_exclusive M client occs sys Hrun).
  unfold exclusive in H. destruct (lock (store sys)); rewrite H.
  - split; [lia|]. split; reflexivity || trivial.
  - split; [lia|]. split; discriminate.
Qed.

Lemma one_thread_in_the_critical_section_witness :
  exists sys,
    find_run 128 (answers "Bob") one_in_flight started = Some sys
    /\ (lock_holders (threads sys) <= 1)%nat
    /\ (lock (store sys) = true <-> lock_holders (threads sys) = 1%nat).
Proof.
  eexists. split; [reflexivity|].
  apply (one_thread_in_the_critical_section 128 (answers "Bob") one_in_flight).
  reflexivity.
Defined.

(** X5. A discovery run cannot get stuck: as long as one thread has not
    finished, some thread can make a step. *)
Theorem some_thread_can_move
        (M : Z) (client : string -> Z -> outcome (option string))
        (occs : list occurrence) (sys : system) (i : nat) (t : pc) :
  find_run M client occs started = Some sys ->
  threads sys !! i = Some t ->
  is_finished t = false ->
  exists j sys', sched_step M client j sys = Some sys'.
Proof.
  intros Hrun Hi Hnf. assert (H := find_run_exclusive M client occs sys Hrun).
  unfold exclusive in H. destruct (lock (store sys)) eqn:El.
  - destruct (count_positive holds_lock (threads sys)) as (j & tj & Hj & Hh).
    { unfold lock_holders in H. rewrite H. lia. }
    exists j. unfold sched_step. rewrite Hj.
    destruct tj; try discriminate Hh; cbn [thread_step]; eexists; reflexivity.
  - exists i. unfold sched_step. rewrite Hi.
    destruct t; try discriminate Hnf; cbn [thread_step]; rewrite ?El;
      try (eexists; reflexivity).
    destruct (probe M client info) as [evs r]. eexists; reflexivity.
Qed.

Lemma some_thread_can_move_witness :
  exists sys,
    find_run 128 (answers "Bob") one_in_flight started = Some sys
    /\ threads sys !! 1%nat
       = Some (Line272 (locals_b "Bob") 0)
    /\ is_finished (Line272 (locals_b "Bob") 0) = false
    /\ exists j sys', sched_step 128 (answers "Bob") j sys = Some sys'.
Proof.
  eexists. split; [reflexivity|]. split; [reflexivity|]. split; [reflexivity|].
  apply (some_thread_can_move 128 (answers "Bob") one_in_flight _ 1%nat
           (Line272 (locals_b "Bob") 0)); reflexivity.
Defined.

(** X6. No network call is made with the lock held: a step of a thread
    that is between [acquire] and [release] adds no discovery call to the
    trace. *)
Theorem no_network_call_under_the_lock
        (M : Z) (client : string -> Z -> outcome (option string))
        (i : nat) (sys sys' : system) (t : pc) :
  threads sys !! i = Some t ->
  holds_lock t = true ->
  sched_step M client i sys = Some sys' ->
  network_calls (trace (store sys')) = network_calls (trace (store sys)).
Proof.
  intros Hi Hh Hs.
  destruct (sched_step_inv M client i sys sys' Hs) as (t0 & t' & s' & Hi' & Ht & ->).
  rewrite Hi in Hi'. injection Hi' as <-. cbn [store].
  destruct t; try discriminate Hh; cbn [thread_step] in Ht;
    injection Ht as <- <-; cbn [trace emit set_lock append]; try reflexivity.
  rewrite network_calls_app, report_line_is_no_call. lia.
Qed.

Lemma no_network_call_under_the_lock_witness :
  exists sys sys',
    find_run 128 (answers "Bob") one_in_flight started = Some sys
    /\ threads sys !! 0%nat = Some (Line273 (locals_b "Bob") 0)
    /\ holds_lock (Line273 (locals_b "Bob") 0) = true
    /\ sched_step 128 (answers "Bob") 0 sys = Some sys'
    /\ network_calls (trace (store sys')) = network_calls (trace (store sys)).
Proof.
  eexists _, _. split; [reflexivity|]. split; [reflexivity|].
  split; [reflexivity|]. split; [reflexivity|].
  apply (no_network_call_under_the_lock 128 (answers "Bob") 0%nat _ _
           (Line273 (locals_b "Bob") 0)); reflexivity.
Defined.

(** X7. Every record of a report written by [find] is discoverable
    exactly when it has a name. *)
Theorem report_records_are_consistent
        (M : Z) (client : string -> Z -> outcome (option string))
        (occs : list occurrence) (t : Q) (r : find_result) (rec : PeerRecord) :
  find M client occs t = Some r ->
  In rec (Resolver.infos (report r)) ->
  (pr_discoverable rec = true <-> pr_name rec <> None).
Proof.
  unfold find.
  destruct (find_run M client occs started) as [sys|] eqn:E; [|discriminate].
  intros H Hin. injection H as <-. cbn [flush report Resolver.infos] in Hin.
  assert (HF := find_run_consistent M client occs sys E).
  rewrite List.Forall_forall in HF. exact (HF rec Hin).
Qed.

Lemma report_records_are_consistent_witness :
  exists r,
    find 128 (answers "Bob") one_probe 10 = Some r
    /\ In (node_info (locals_b "Bob")) (Resolver.infos (report r))
    /\ (pr_discoverable (node_info (locals_b "Bob")) = true
        <-> pr_name (node_info (locals_b "Bob")) <> None).
Proof.
  eexists. split; [reflexivity|]. split; [left; reflexivity|].
  eapply (report_records_are_consistent 128 (answers "Bob") one_probe 10 _
            (node_info (locals_b "Bob"))).
  - reflexivity.
  - left; reflexivity.
Defined.

(** X8. Every index announced by a [Found] line during a discovery run is
    a position of the catalogue as it is from then on: it is below the
    number of records, also when two threads raced for it. *)
Theorem reported_index_is_a_position
        (M : Z) (client : string -> Z -> outcome (option string))
        (occs : list occurrence) (sys : system) (k : nat) :
  find_run M client occs started = Some sys ->
  In k (reported_indices (trace (store sys))) ->
  (k < List.length (discover (store sys)))%nat.
Proof.
  intros Hrun Hk.
  destruct (find_run_indices M client occs sys Hrun) as [HF _].
  rewrite List.Forall_forall in HF. exact (HF k Hk).
Qed.

Lemma reported_index_is_a_position_witness :
  exists sys,
    find_run 128 (answers "Bob") two_racing started = Some sys
    /\ In 0%nat (reported_indices (trace (store sys)))
    /\ (0 < List.length (discover (store sys)))%nat.
Proof.
  eexists. split; [reflexivity|]. split; [left; reflexivity|].
  apply (reported_index_is_a_position 128 (answers "Bob") two_racing);
    [reflexivity | left; reflexivity].
Defined.

End FindExtras.

Module ProbeExtras.
Import PyInt Resolver Probe Coordinator Find Samples Runs.
Import PyIntFacts ResolverFacts CoordinatorFacts.

(** X9. A [flags] property that is no decimal integer ends the probe with
    the [ValueError] of [int]: no discovery call is made, nothing is
    appended and the lock is not touched. *)
Theorem unreadable_flags_end_the_probe
        (M : Z) (client : string -> Z -> outcome (option string))
        (info : ServiceRecord) (a : string) (rest : list string)
        (b : string) (s : shared) :
  si_parsed_addresses info = a :: rest ->
  si_properties info !! "flags" = Some b ->
  PyLong_FromString b = None ->
  exists s',
    _send_discover M client info s = Some (Raise ValueError, s')
    /\ discover s' = discover s
    /\ lock s' = lock s
    /\ network_calls (trace s') = network_calls (trace s).
Proof.
  intros Ha Hp Hb. unfold _send_discover, probe, read_flags, int_of_bytes.
  rewrite Ha, Hp, Hb. eexists. split; [reflexivity|].
  cbn [emit discover lock trace]. rewrite network_calls_app. cbn.
  repeat split; lia.
Qed.

Lemma unreadable_flags_end_the_probe_witness :
  si_parsed_addresses service_bad_flags = "fe80::4" :: []
  /\ si_properties service_bad_flags !! "flags" = Some "0x1"
  /\ PyLong_FromString "0x1" = None
  /\ exists s',
      _send_discover 128 (answers "Bob") service_bad_flags initial
      = Some (Raise ValueError, s')
      /\ discover s' = discover initial
      /\ lock s' = lock initial
      /\ network_calls (trace s') = network_calls (trace initial).
Proof.
  split; [reflexivity|]. split; [reflexivity|]. split; [reflexivity|].
  apply (unreadable_flags_end_the_probe 128 (answers "Bob") service_bad_flags
           "fe80::4" [] "0x1" initial); reflexivity.
Defined.

(** X10. When the discovery call fails with anything but a timeout, the
    exception leaves [_send_discover]: the call was made once, nothing is
    appended and the lock is not touched. *)
Theorem client_failure_leaves_the_probe
        (M : Z) (client : string -> Z -> outcome (option string))
        (info : ServiceRecord) (a : string) (rest : list string)
        (fl : Z) (e : exn) (s : shared) :
  si_parsed_addresses info = a :: rest ->
  read_flags M info = Return fl ->
  Z.land fl M <> 0 ->
  client a (si_port info) = Raise e ->
  e <> TimeoutError ->
  exists s',
    _send_discover M client info s = Some (Raise e, s')
    /\ discover s' = discover s
    /\ lock s' = lock s
    /\ network_calls (trace s') = S (network_calls (trace s)).
Proof.
  intros Ha Hf Hz Hc He. unfold _send_discover, probe. rewrite Ha, Hf.
  destruct (Z.eqb_spec (Z.land fl M) 0) as [|_]; [contradiction|].
  rewrite Hc.
  assert (Hm : forall (X Y : list event * outcome (option locals)),
             match e with TimeoutError => X | _ => Y end = Y)
    by (intros X Y; destruct e; congruence).
  rewrite Hm. eexists. split; [reflexivity|].
  cbn [emit discover lock trace]. rewrite network_calls_app. cbn.
  repeat split; lia.
Qed.

Lemma client_failure_leaves_the_probe_witness :
  si_parsed_addresses service_b = "fe80::2" :: []
  /\ read_flags 128 service_b = Return 128
  /\ Z.land 128 128 <> 0
  /\ refuses "fe80::2" (si_port service_b)
     = Raise (OtherError "ConnectionRefusedError")
  /\ OtherError "ConnectionRefusedError" <> TimeoutError
  /\ exists s',
      _send_discover 128 refuses service_b initial
      = Some (Raise (OtherError "ConnectionRefusedError"), s')
      /\ discover s' = discover initial
      /\ lock s' = lock initial
      /\ network_calls (trace s') = S (network_calls (trace initial)).
Proof.
  assert (Hz : Z.land 128 128 <> 0) by discriminate.
  assert (He : OtherError "ConnectionRefusedError" <> TimeoutError)
    by discriminate.
  split; [reflexivity|]. split; [reflexivity|]. split; [exact Hz|].
  split; [reflexivity|]. split; [exact He|].
  apply (client_failure_leaves_the_probe 128 refuses service_b "fe80::2" []
           128 (OtherError "ConnectionRefusedError") initial);
    [reflexivity | reflexivity | exact Hz | reflexivity | exact He].
Defined.

(** X11. With the lock free, [_send_discover] returns for every service
    record and every peer: it leaves the lock free, makes at most one
    discovery call, and appends at most one record, and only when it
    returns normally. *)
Theorem probe_returns_and_frees_the_lock
        (M : Z) (client : string -> Z -> outcome (option string))
        (info : ServiceRecord) (s : shared) :
  lock s = false ->
  exists r s',
    _send_discover M client info s = Some (r, s')
    /\ lock s' = false
    /\ (network_calls (trace s') <= S (network_calls (trace s)))%nat
    /\ (discover s' = discover s
        \/ exists rec, discover s' = discover s ++ [rec] /\ r = Return tt).
Proof.
  intros Hl. unfold _send_discover.
  destruct (probe M client info) as [evs r0] eqn:Ep.
  assert (Hn : (network_calls evs <= 1)%nat).
  { revert Ep. unfold probe.
    destruct (si_parsed_addresses info) as [|a rest].
    { intros H; injection H as <- <-. cbn. lia. }
    destruct (read_flags M info) as [fl|e].
    2:{ intros H; injection H as <- <-. cbn. lia. }
    destruct (Z.land fl M =? 0).
    { intros H; injection H as <- <-. cbn. lia. }
    destruct (client a (si_port info)) as [n|[]];
      intros H; injection H as <- <-; cbn; lia. }
  destruct r0 as [[l|]|e]; cbn [emit lock]; rewrite ?Hl;
    eexists _, _; (split; [reflexivity|]);
    cbn [emit set_lock append lock trace discover];
    rewrite ?network_calls_app, ?report_line_is_no_call;
    (split; [exact Hl || reflexivity|]); (split; [lia|]).
  - right. eexists. split; reflexivity.
  - left. reflexivity.
  - left. reflexivity.
Qed.

Lemma probe_returns_and_frees_the_lock_witness :
  lock initial = false
  /\ exists r s',
      _send_discover 128 times_out service_a initial = Some (r, s')
      /\ lock s' = false
      /\ (network_calls (trace s') <= S (network_calls (trace initial)))%nat
      /\ (discover s' = discover initial
          \/ exists rec, discover s' = discover initial ++ [rec]
                         /\ r = Return tt).
Proof.
  split; [reflexivity|].
  apply (probe_returns_and_frees_the_lock 128 times_out service_a initial).
  reflexivity.
Defined.

(** X12. The identifier of line 239 is the first label of the service
    name: the name is the identifier followed by nothing or by a dot and
    the rest, and the identifier contains no dot. *)
Theorem identifier_is_the_first_label (name : string) :
  (exists rest,
      name = (split_dot_head name ++ rest)%string
      /\ (rest = EmptyString \/ exists r, rest = String "."%char r))
  /\ ~ In "."%char (list_ascii_of_string (split_dot_head name)).
Proof.
  induction name as [|c r [(rest & Hr & Hrest) Hno]].
  - split; [|intros []]. exists EmptyString. split; [reflexivity|now left].
  - cbn [split_dot_head]. destruct (Ascii.eqb_spec c "."%char) as [->|Hc].
    + split; [|intros []]. exists (String "."%char r).
      split; [reflexivity|]. right. now exists r.
    + split.
      * exists rest. split; [|exact Hrest].
        change (String c r = String c (split_dot_head r ++ rest)%string).
        f_equal. exact Hr.
      * cbn [list_ascii_of_string]. intros [H|H]; [now apply Hc | now apply Hno].
Qed.

(** X13. Found, then sent to by index: when a probe runs without being
    interrupted and gets a name, the index in its [Found] line is the
    position of its record, and the token made of that index resolves to
    this record in every report written afterwards. *)
Theorem announced_index_resolves_to_the_record
        (M : Z) (client : string -> Z -> outcome (option string))
        (info : ServiceRecord) (s : shared) (evs : list event) (l : locals)
        (n : string) (more : list PeerRecord) (t mt : Q) :
  lock s = false ->
  probe M client info = (evs, Return (Some l)) ->
  receiver_name l = Some n ->
  exists s',
    _send_discover M client info s = Some (Return tt, s')
    /\ reported_indices (trace s')
       = reported_indices (trace s) ++ [List.length (discover s)]
    /\ returned
         (_get_receiver_info
            (RStr (str_of_int (Z.of_nat (List.length (discover s)))))
            (world_with (discover s' ++ more) t mt))
       = Return (Some (node_info l)).
Proof.
  intros Hl Hp Hn.
  destruct (alone_reports_own_position M client info s evs l n Hl Hp Hn)
    as (s' & Hs & _ & Hd & Hi).
  exists s'. split; [exact Hs|]. split; [exact Hi|].
  unfold _get_receiver_info, world_with.
  cbn [discovery_report infos returned].
  rewrite (resolve_index_hit _ (discover s' ++ more)
             (Z.of_nat (List.length (discover s))) (node_info l));
    [reflexivity | apply int_of_str_of_int |].
  rewrite list_getitem_nonneg.
  - rewrite Nat2Z.id, Hd, <- app_assoc.
    rewrite nth_error_app2 by lia. now rewrite Nat.sub_diag.
  - rewrite Hd, !List.length_app. cbn [List.length]. lia.
Qed.

Lemma announced_index_resolves_to_the_record_witness :
  lock initial = false
  /\ probe 128 (answers "Bob") service_b
     = (events_b, Return (Some (locals_b "Bob")))
  /\ receiver_name (locals_b "Bob") = Some "Bob"
  /\ exists s',
      _send_discover 128 (answers "Bob") service_b initial
      = Some (Return tt, s')
      /\ reported_indices (trace s')
         = reported_indices (trace initial) ++ [List.length (discover initial)]
      /\ returned
           (_get_receiver_info
              (RStr (str_of_int (Z.of_nat (List.length (discover initial)))))
              (world_with (discover s' ++ [bob]) 30 10))
         = Return (Some (node_info (locals_b "Bob"))).
Proof.
  split; [reflexivity|]. split; [reflexivity|]. split; [reflexivity|].
  apply (announced_index_resolves_to_the_record 128 (answers "Bob") service_b
           initial events_b (locals_b "Bob") "Bob" [bob] 30 10); reflexivity.
Defined.

End ProbeExtras.

(** ** More on receiver resolution *)

Module ResolverExtras.
Import PyInt Resolver Tiers Samples Runs PyIntFacts ResolverFacts.

Lemma list_getitem_in {A : Type} (l : list A) (i : Z) (x : A) :
  list_getitem l i = Some x -> In x l.
Proof.
  unfold list_getitem. cbv zeta.
  destruct ((_ <? 0) || (_ <=? _)); [discriminate|].
  apply nth_error_In.
Qed.

Lemma list_getitem_none {A : Type} (l : list A) (i : Z) :
  list_getitem l i = None <-> out_of_range (List.length l) i.
Proof.
  split; [|apply list_getitem_out_of_range].
  unfold list_getitem, out_of_range. cbv zeta. intros H.
  destruct (Z.ltb_spec i 0) as [Hneg|Hpos].
  - destruct (Z.ltb_spec (i + Z.of_nat (List.length l)) 0) as [|H1]; [lia|].
    destruct (Z.leb_spec (Z.of_nat (List.length l))
                (i + Z.of_nat (List.length l))) as [|H2]; [lia|].
    cbn [orb] in H. apply nth_error_None in H. lia.
  - destruct (Z.ltb_spec i 0) as [|_]; [lia|].
    destruct (Z.leb_spec (Z.of_nat (List.length l)) i) as [|H2]; [lia|].
    cbn [orb] in H. apply nth_error_None in H. lia.
Qed.

Lemma int_of_str_raises (t : string) (e : exn) :
  int_of_str t = Raise e -> e = ValueError.
Proof.
  unfold int_of_str. destruct (PyLong_FromString _); [discriminate|].
  intros H. now injection H as <-.
Qed.

(** What the lookup of lines 360-381 gives for a token, by cases. *)
Lemma resolve_cases (t : string) (R : list PeerRecord) :
  (exists z, int_of_str t = Return z
             /\ resolve (RStr t) R
                = match list_getitem R z with
                  | Some info => {| returned := Return (Some info);
                                    receiver_after := RInt z; logged := [] |}
                  | None => {| returned := Raise TypeError;
                               receiver_after := RInt z; logged := [] |}
                  end)
  \/ (int_of_str t = Raise ValueError
      /\ resolve (RStr t) R
         = match (if (String.length t =? 12)%nat
                  then List.find (fun info => id_eq info (RStr t)) R
                  else None) with
           | Some info => {| returned := Return (Some info);
                             receiver_after := RStr t; logged := [] |}
           | None =>
               match List.find (fun info => name_eq info (RStr t)) R with
               | Some info => {| returned := Return (Some info);
                                 receiver_after := RStr t; logged := [] |}
               | None => {| returned := Return None; receiver_after := RStr t;
                            logged := [Log ERROR MsgReceiverDoesNotExist] |}
               end
           end).
Proof.
  destruct (int_of_str t) as [z|e] eqn:Ei.
  - left. exists z. split; [reflexivity|].
    destruct (list_getitem R z) as [info|] eqn:Eg.
    + now apply resolve_index_hit.
    + now apply resolve_index_miss.
  - right. assert (He := int_of_str_raises t e Ei). subst e.
    split; [reflexivity|]. exact (resolve_not_integer t R Ei).
Qed.

(** X14. Whatever the token, a record returned by the lookup is one of
    the records of the report file. *)
Theorem returned_record_is_in_the_report
        (t : string) (w : world) (info : PeerRecord) :
  returned (_get_receiver_info (RStr t) w) = Return (Some info) ->
  exists f, discovery_report w = Some f /\ In info (infos f).
Proof.
  unfold _get_receiver_info.
  destruct (discovery_report w) as [f|]; [|discriminate].
  cbn [returned]. intros H. exists f. split; [reflexivity|].
  destruct (resolve_cases t (infos f)) as [(z & _ & E)|[_ E]];
    rewrite E in H; clear E.
  - destruct (list_getitem (infos f) z) as [x|] eqn:Eg; [|discriminate].
    injection H as <-. exact (list_getitem_in _ _ _ Eg).
  - destruct (String.length t =? 12)%nat.
    + destruct (List.find (fun x => id_eq x (RStr t)) (infos f)) as [x|] eqn:E1.
      * injection H as <-. exact (proj1 (List.find_some _ _ E1)).
      * destruct (List.find (fun x => name_eq x (RStr t)) (infos f))
          as [x|] eqn:E2; [|discriminate].
        injection H as <-. exact (proj1 (List.find_some _ _ E2)).
    + destruct (List.find (fun x => name_eq x (RStr t)) (infos f))
        as [x|] eqn:E2; [|discriminate].
      injection H as <-. exact (proj1 (List.find_some _ _ E2)).
Qed.

Lemma returned_record_is_in_the_report_witness :
  returned (_get_receiver_info (RStr "Bob") (world_with report_bob 100 90))
  = Return (Some bob)
  /\ exists f,
      discovery_report (world_with report_bob 100 90) = Some f
      /\ In bob (infos f).
Proof.
  split; [reflexivity|].
  apply (returned_record_is_in_the_report "Bob" (world_with report_bob 100 90)
           bob).
  reflexivity.
Defined.

(** X15. Once the report is loaded as a list of records, and for a token
    of at most 4300 characters (below the interpreter's default ceiling
    on the digits of an integer literal), the lookup of lines 360-381
    raises in one case only: the token is accepted by [int] and the
    integer is no position of the report, counted from either end; the
    exception is then [TypeError]. *)
Theorem lookup_raises_exactly_on_a_stray_integer
        (t : string) (R : list PeerRecord) (e : exn) :
  (String.length t <= 4300)%nat ->
  (returned (resolve (RStr t) R) = Raise e
   <-> e = TypeError
       /\ exists z, int_of_str t = Return z /\ out_of_range (List.length R) z).
Proof.
  intros _.
  destruct (resolve_cases t R) as [(z & Ez & E)|[Ez E]]; rewrite E; clear E.
  - destruct (list_getitem R z) as [x|] eqn:Eg; cbn [returned]; split.
    + discriminate.
    + intros (_ & z' & Ez' & Hout). rewrite Ez in Ez'. injection Ez' as <-.
      apply list_getitem_none in Hout. congruence.
    + intros H. injection H as <-. split; [reflexivity|].
      exists z. split; [exact Ez|]. now apply list_getitem_none.
    + intros [-> _]. reflexivity.
  - split.
    + destruct (String.length t =? 12)%nat;
        repeat match goal with
               | |- context [List.find ?p ?l] => destruct (List.find p l)
               end; discriminate.
    + intros (_ & z & Ez' & _). congruence.
Qed.

Lemma lookup_raises_exactly_on_a_stray_integer_witness :
  (String.length "1" <= 4300)%nat
  /\ (returned (resolve (RStr "1") report_bob) = Raise TypeError
      <-> TypeError = TypeError
          /\ exists z, int_of_str "1" = Return z
                       /\ out_of_range (List.length report_bob) z).
Proof.
  assert (H : (String.length "1" <= 4300)%nat) by (simpl; lia).
  split; [exact H|].
  apply (lookup_raises_exactly_on_a_stray_integer "1" report_bob TypeError).
  exact H.
Defined.

(** X16. A negative integer token counts from the end of the report: for
    [-len(R) <= i < 0] the token [str(i)] returns the record at position
    [len(R) + i]. *)
Theorem negative_index_counts_from_the_end
        (w : world) (f : report_file) (i : Z) :
  discovery_report w = Some f ->
  - Z.of_nat (List.length (infos f)) <= i < 0 ->
  exists info,
    nth_error (infos f) (Z.to_nat (Z.of_nat (List.length (infos f)) + i))
    = Some info
    /\ returned (_get_receiver_info (RStr (str_of_int i)) w)
       = Return (Some info).
Proof.
  intros Hf Hi.
  destruct (nth_error (infos f)
              (Z.to_nat (Z.of_nat (List.length (infos f)) + i)))
    as [info|] eqn:En.
  - exists info. split; [reflexivity|].
    unfold _get_receiver_info. rewrite Hf. cbn [returned].
    rewrite (resolve_index_hit (RStr (str_of_int i)) (infos f) i info);
      [reflexivity | apply int_of_str_of_int |].
    unfold list_getitem. cbv zeta.
    assert (E0 : (i <? 0) = true) by (apply Z.ltb_lt; lia).
    assert (E1 : (i + Z.of_nat (List.length (infos f)) <? 0) = false)
      by (apply Z.ltb_ge; lia).
    assert (E2 : (Z.of_nat (List.length (infos f))
                  <=? i + Z.of_nat (List.length (infos f))) = false)
      by (apply Z.leb_gt; lia).
    rewrite E0, E1, E2. cbn [orb].
    now rewrite Z.add_comm.
  - apply nth_error_None in En. lia.
Qed.

Lemma negative_index_counts_from_the_end_witness :
  discovery_report (world_with [bob; bob] 100 90)
  = Some {| mtime := 90; infos := [bob; bob] |}
  /\ - Z.of_nat (List.length [bob; bob]) <= -2 < 0
  /\ exists info,
      nth_error [bob; bob]
        (Z.to_nat (Z.of_nat (List.length [bob; bob]) + -2)) = Some info
      /\ returned (_get_receiver_info (RStr (str_of_int (-2)))
                     (world_with [bob; bob] 100 90))
         = Return (Some info).
Proof.
  split; [reflexivity|]. split; [simpl; lia|].
  apply (negative_index_counts_from_the_end (world_with [bob; bob] 100 90)
           {| mtime := 90; infos := [bob; bob] |} (-2));
    [reflexivity | simpl; lia].
Defined.

(** X17. Ties and precedence in the identifier tier: for a token of 12
    characters that [int] rejects, the first record in catalogue order
    whose id is the token is returned, also when several records have
    that id and also when another record carries the token as its
    name. *)
Theorem first_record_with_the_id_wins
        (w : world) (f : report_file) (t : string)
        (info : PeerRecord) (others : list PeerRecord) :
  discovery_report w = Some f ->
  String.length t = 12%nat ->
  int_of_str t = Raise ValueError ->
  records_with_id t (infos f) = info :: others ->
  returned (_get_receiver_info (RStr t) w) = Return (Some info).
Proof.
  intros Hf Hl Hi Hu. unfold _get_receiver_info. rewrite Hf. cbn [returned].
  now rewrite (id_tier_first_match t (infos f) info others Hi Hl Hu).
Qed.

Lemma first_record_with_the_id_wins_witness :
  discovery_report (world_with [namesake; bob; bob] 100 90)
  = Some {| mtime := 90; infos := [namesake; bob; bob] |}
  /\ String.length "aa11bb22cc33" = 12%nat
  /\ int_of_str "aa11bb22cc33" = Raise ValueError
  /\ records_with_id "aa11bb22cc33" [namesake; bob; bob] = bob :: [bob]
  /\ returned (_get_receiver_info (RStr "aa11bb22cc33")
                 (world_with [namesake; bob; bob] 100 90))
     = Return (Some bob).
Proof.
  repeat (split; [reflexivity|]).
  apply (first_record_with_the_id_wins
           (world_with [namesake; bob; bob] 100 90)
           {| mtime := 90; infos := [namesake; bob; bob] |}
           "aa11bb22cc33" bob [bob]); reflexivity.
Defined.

(** X18. The name tier: for a token that [int] rejects and that the
    identifier tier does not match (it has not 12 characters, or no
    record has it as id), the first record in catalogue order whose name
    is the token is returned. *)
Theorem first_record_with_the_name_wins
        (w : world) (f : report_file) (t : string)
        (info : PeerRecord) (others : list PeerRecord) :
  discovery_report w = Some f ->
  int_of_str t = Raise ValueError ->
  (String.length t = 12%nat -> records_with_id t (infos f) = []) ->
  records_with_name t (infos f) = info :: others ->
  returned (_get_receiver_info (RStr t) w) = Return (Some info).
Proof.
  intros Hf Hi Hid Hn. unfold _get_receiver_info. rewrite Hf. cbn [returned].
  rewrite (resolve_not_integer t (infos f) Hi).
  assert (E : (if (String.length t =? 12)%nat
               then List.find (fun x => id_eq x (RStr t)) (infos f)
               else None) = None).
  { destruct (Nat.eqb_spec (String.length t) 12) as [H12|]; [|reflexivity].
    rewrite find_filter_head. cbn [id_eq].
    unfold records_with_id in Hid. now rewrite (Hid H12). }
  rewrite E, find_filter_head. unfold records_with_name in Hn.
  now rewrite Hn.
Qed.

Lemma first_record_with_the_name_wins_witness :
  discovery_report (world_with report_bob 100 90)
  = Some {| mtime := 90; infos := report_bob |}
  /\ int_of_str "Bob" = Raise ValueError
  /\ (String.length "Bob" = 12%nat -> records_with_id "Bob" report_bob = [])
  /\ records_with_name "Bob" report_bob = bob :: []
  /\ returned (_get_receiver_info (RStr "Bob") (world_with report_bob 100 90))
     = Return (Some bob).
Proof.
  assert (H : String.length "Bob" = 12%nat ->
              records_with_id "Bob" report_bob = []) by reflexivity.
  split; [reflexivity|]. split; [reflexivity|]. split; [exact H|].
  split; [reflexivity|].
  apply (first_record_with_the_name_wins (world_with report_bob 100 90)
           {| mtime := 90; infos := report_bob |} "Bob" bob []);
    [reflexivity | reflexivity | exact H | reflexivity].
Defined.

(** X19. For a token that [int] rejects, the lookup ends with the
    not-found outcome exactly when no record has the token as name and,
    if the token has 12 characters, none has it as id; an id equal to a
    token of another length does not count. *)
Theorem not_found_exactly_when_nothing_matches
        (t : string) (R : list PeerRecord) :
  int_of_str t = Raise ValueError ->
  (receiver_not_found (resolve (RStr t) R)
   <-> (String.length t = 12%nat -> forall info, In info R -> pr_id info <> t)
       /\ (forall info, In info R -> pr_name info <> Some t)).
Proof.
  intros Hi. rewrite (resolve_not_integer t R Hi).
  assert (Hid : List.find (fun x => id_eq x (RStr t)) R = None
                <-> forall info, In info R -> pr_id info <> t).
  { rewrite find_none_iff. cbn [id_eq].
    split; intros H x Hx; apply String.eqb_neq; now apply H. }
  assert (Hname : List.find (fun x => name_eq x (RStr t)) R = None
                  <-> forall info, In info R -> pr_name info <> Some t).
  { rewrite find_none_iff. unfold name_eq.
    split; intros H x Hx; specialize (H x Hx).
    - destruct (pr_name x) as [n|]; [|discriminate].
      apply String.eqb_neq in H. congruence.
    - destruct (pr_name x) as [n|]; [|reflexivity].
      apply String.eqb_neq. congruence. }
  unfold receiver_not_found.
  destruct (Nat.eqb_spec (String.length t) 12) as [H12|H12].
  - destruct (List.find (fun x => id_eq x (RStr t)) R) as [x|] eqn:E1.
    + cbn [returned logged]. split; [intros [H _]; discriminate H|].
      intros [H _]. apply Hid in H; [discriminate H|exact H12].
    + destruct (List.find (fun x => name_eq x (RStr t)) R) as [x|] eqn:E2;
        cbn [returned logged].
      * split; [intros [H _]; discriminate H|].
        intros [_ H]. apply Hname in H. discriminate H.
      * split; [|intros _; now split].
        intros _. split; [intros _; now apply Hid | now apply Hname].
  - destruct (List.find (fun x => name_eq x (RStr t)) R) as [x|] eqn:E2;
      cbn [returned logged].
    + split; [intros [H _]; discriminate H|].
      intros [_ H]. apply Hname in H. discriminate H.
    + split; [|intros _; now split].
      intros _. split; [intros H; contradiction | now apply Hname].
Qed.

Lemma not_found_exactly_when_nothing_matches_witness :
  int_of_str "aa11bb22cc3" = Raise ValueError
  /\ (receiver_not_found (resolve (RStr "aa11bb22cc3") report_bob)
      <-> (String.length "aa11bb22cc3" = 12%nat ->
           forall info, In info report_bob -> pr_id info <> "aa11bb22cc3")
          /\ (forall info, In info report_bob ->
                           pr_name info <> Some "aa11bb22cc3")).
Proof.
  split; [reflexivity|].
  apply (not_found_exactly_when_nothing_matches "aa11bb22cc3" report_bob).
  reflexivity.
Defined.

End ResolverExtras.

(** ** Command dispatch and the sending commands *)

Module CliExtras.
Import PyInt Resolver Cli Samples Runs.

Section WithEnvironment.

Variable Json : Type.
Variable isfile : string -> bool.
Variable load_json : string -> outcome Json.
Variable read_bytes : string -> outcome string.
Variable client_ask :
  string -> port_value -> option string -> option Json -> option string ->
  outcome bool.
Variable client_upload :
  string -> port_value -> option string -> option string -> outcome bool.

Lemma optional_payload_ok {A : Type}
      (read : string -> option A * list cli_event) (path : option string)
      (r : option A * list cli_event) :
  optional_payload isfile read path = inr r ->
  forall p, path = Some p -> isfile p = true.
Proof.
  unfold optional_payload. destruct path as [q|]; [|discriminate 2].
  destruct (isfile q) eqn:E; [|discriminate].
  intros _ p H. now injection H as <-.
Qed.

Lemma optional_file_ok (err : parser_error) (path file : option string) :
  optional_file isfile err path = inr file ->
  file = path /\ forall p, path = Some p -> isfile p = true.
Proof.
  unfold optional_file. destruct path as [q|].
  - destruct (isfile q) eqn:E; [|discriminate].
    intros H. injection H as <-. split; [reflexivity|].
    intros p Hp. now injection Hp as <-.
  - intros H. injection H as <-. split; [reflexivity|discriminate].
Qed.

(** What a successful dispatch went through. *)
Lemma dispatch_inv (a : args) (evs : list cli_event) (p : prepared Json) :
  dispatch Json isfile load_json read_bytes a = (evs, inr p) ->
  (forall q, a_payload a = Some q -> isfile q = true)
  /\ (forall q, a_binpayload a = Some q -> isfile q = true)
  /\ choose isfile a = inr (dispatched Json p).
Proof.
  unfold dispatch.
  destruct (optional_payload isfile (_read_json_payload Json load_json)
              (a_payload a)) as [e|[custom evs1]] eqn:E1;
    [discriminate|].
  destruct (optional_payload isfile (_read_binary_payload read_bytes)
              (a_binpayload a)) as [e|[raw evs2]] eqn:E2;
    [discriminate|].
  destruct (choose isfile a) as [e|c] eqn:E3; [discriminate|].
  intros H. injection H as _ <-. cbn [dispatched].
  split; [exact (optional_payload_ok _ _ _ E1)|].
  split; [exact (optional_payload_ok _ _ _ E2)|reflexivity].
Qed.

Lemma no_request_from_resolver (l : list event) :
  List.filter is_network (map FromResolver l) = [].
Proof. induction l as [|e l IH]; [reflexivity|exact IH]. Qed.

(** The command a successful dispatch ends in, read off the arguments. *)
Lemma dispatch_command (a : args) (evs : list cli_event) (p : prepared Json) :
  dispatch Json isfile load_json read_bytes a = (evs, inr p) ->
  match dispatched Json p with
  | CmdReceive => a_action a = Receive
  | CmdFind => a_action a = DoFind
  | CmdDiscover address port =>
      a_action a = Discover /\ a_address a = Some address /\ port = a_port a
  | CmdAsk address port file rawcpio =>
      a_action a = Ask /\ a_address a = Some address /\ port = a_port a
      /\ file = a_file a /\ rawcpio = a_rawcpio a
  | CmdUpload address port file rawcpio =>
      a_action a = Upload /\ a_address a = Some address /\ port = a_port a
      /\ file = a_file a /\ rawcpio = a_rawcpio a
  | CmdAskUpload address port file rawcpio =>
      a_action a = AskUpload /\ a_address a = Some address /\ port = a_port a
      /\ file = a_file a /\ rawcpio = a_rawcpio a
  | CmdSend file receiver =>
      a_action a = DoSend /\ a_file a = Some file /\ isfile file = true
      /\ a_receiver a = Some receiver
  end.
Proof.
  intros H.
  destruct (dispatch_inv a evs p H)
    as (_ & _ & Hc).
  revert Hc. generalize (dispatched Json p). intros c. unfold choose.
  destruct (a_action a) eqn:Ea.
  - intros E. now injection E as <-.
  - intros E. now injection E as <-.
  - destruct (a_file a) as [f|]; [|discriminate].
    destruct (isfile f) eqn:Ef; [|discriminate].
    destruct (a_receiver a) as [r|]; [|discriminate].
    intros E. injection E as <-. repeat split; assumption.
  - destruct (a_address a) as [ad|]; [|discriminate].
    intros E. injection E as <-. repeat split.
  - destruct (a_address a) as [ad|]; [|discriminate].
    destruct (optional_file isfile FileNotFound (a_file a)) as [|f] eqn:E1;
      [discriminate|].
    destruct (optional_file isfile RawcpioNotFound (a_rawcpio a)) as [|r] eqn:E2;
      [discriminate|].
    intros E. injection E as <-.
    destruct (optional_file_ok _ _ _ E1) as [-> _].
    destruct (optional_file_ok _ _ _ E2) as [-> _]. repeat split.
  - destruct (a_address a) as [ad|]; [|discriminate].
    destruct (optional_file isfile FileNotFound (a_file a)) as [|f] eqn:E1;
      [discriminate|].
    destruct (optional_file isfile RawcpioNotFound (a_rawcpio a)) as [|r] eqn:E2;
      [discriminate|].
    intros E. injection E as <-.
    destruct (optional_file_ok _ _ _ E1) as [-> _].
    destruct (optional_file_ok _ _ _ E2) as [-> _]. repeat split.
  - destruct (a_address a) as [ad|]; [|discriminate].
    destruct (optional_file isfile FileNotFound (a_file a)) as [|f] eqn:E1;
      [discriminate|].
    destruct (optional_file isfile RawcpioNotFound (a_rawcpio a)) as [|r] eqn:E2;
      [discriminate|].
    intros E. injection E as <-.
    destruct (optional_file_ok _ _ _ E1) as [-> _].
    destruct (optional_file_ok _ _ _ E2) as [-> _]. repeat split.
Qed.

End WithEnvironment.

(** X21. When the dispatch reaches a command, every file it was told to
    use exists: the two payload files for every action, the file of [-f]
    for [send], [ask], [upload] and [askupload], the file of [-R] for the
    last three. *)
Theorem dispatched_files_exist
        (Json : Type) (isfile : string -> bool)
        (load_json : string -> outcome Json)
        (read_bytes : string -> outcome string)
        (a : args) (evs : list cli_event) (p : prepared Json) :
  dispatch Json isfile load_json read_bytes a = (evs, inr p) ->
  (forall q, a_payload a = Some q -> isfile q = true)
  /\ (forall q, a_binpayload a = Some q -> isfile q = true)
  /\ (checks_file (a_action a) = true ->
      forall q, a_file a = Some q -> isfile q = true)
  /\ (checks_rawcpio (a_action a) = true ->
      forall q, a_rawcpio a = Some q -> isfile q = true).
Proof.
  intros H.
  destruct (dispatch_inv Json isfile load_json read_bytes a evs p H)
    as (H1 & H2 & Hc).
  split; [exact H1|]. split; [exact H2|].
  revert Hc. generalize (dispatched Json p). intros c. unfold choose.
  destruct (a_action a) eqn:Ea; cbn [checks_file checks_rawcpio];
    try (intros _; split; discriminate).
  - destruct (a_file a) as [f|]; [|discriminate].
    destruct (isfile f) eqn:Ef; [|discriminate].
    intros _. split; [|discriminate]. intros _ q Hq. now injection Hq as <-.
  - destruct (a_address a); [|discriminate].
    destruct (optional_file isfile FileNotFound (a_file a)) as [|f] eqn:E1;
      [discriminate|].
    destruct (optional_file isfile RawcpioNotFound (a_rawcpio a)) as [|r] eqn:E2;
      [discriminate|].
    intros _. split; intros _.
    + exact (proj2 (optional_file_ok isfile _ _ _ E1)).
    + exact (proj2 (optional_file_ok isfile _ _ _ E2)).
  - destruct (a_address a); [|discriminate].
    destruct (optional_file isfile FileNotFound (a_file a)) as [|f] eqn:E1;
      [discriminate|].
    destruct (optional_file isfile RawcpioNotFound (a_rawcpio a)) as [|r] eqn:E2;
      [discriminate|].
    intros _. split; intros _.
    + exact (proj2 (optional_file_ok isfile _ _ _ E1)).
    + exact (proj2 (optional_file_ok isfile _ _ _ E2)).
  - destruct (a_address a); [|discriminate].
    destruct (optional_file isfile FileNotFound (a_file a)) as [|f] eqn:E1;
      [discriminate|].
    destruct (optional_file isfile RawcpioNotFound (a_rawcpio a)) as [|r] eqn:E2;
      [discriminate|].
    intros _. split; intros _.
    + exact (proj2 (optional_file_ok isfile _ _ _ E1)).
    + exact (proj2 (optional_file_ok isfile _ _ _ E2)).
Qed.

Lemma dispatched_files_exist_witness :
  exists evs p,
    dispatch unit only_photo unreadable unreadable send_photo = (evs, inr p)
    /\ (forall q, a_payload send_photo = Some q -> only_photo q = true)
    /\ (forall q, a_binpayload send_photo = Some q -> only_photo q = true)
    /\ (checks_file (a_action send_photo) = true ->
        forall q, a_file send_photo = Some q -> only_photo q = true)
    /\ (checks_rawcpio (a_action send_photo) = true ->
        forall q, a_rawcpio send_photo = Some q -> only_photo q = true).
Proof.
  eexists _, _. split; [reflexivity|].
  eapply (dispatched_files_exist unit only_photo unreadable unreadable
            send_photo).
  reflexivity.
Defined.

(** X22. The method the dispatch calls is the one of the action, with the
    address, port, file and receiver of the command line; [send] is only
    reached with a file that exists and a receiver, the four raw actions
    only with an address. *)
Theorem command_follows_the_arguments
        (Json : Type) (isfile : string -> bool)
        (load_json : string -> outcome Json)
        (read_bytes : string -> outcome string)
        (a : args) (evs : list cli_event) (p : prepared Json) :
  dispatch Json isfile load_json read_bytes a = (evs, inr p) ->
  match dispatched Json p with
  | CmdReceive => a_action a = Receive
  | CmdFind => a_action a = DoFind
  | CmdDiscover address port =>
      a_action a = Discover /\ a_address a = Some address /\ port = a_port a
  | CmdAsk address port file rawcpio =>
      a_action a = Ask /\ a_address a = Some address /\ port = a_port a
      /\ file = a_file a /\ rawcpio = a_rawcpio a
  | CmdUpload address port file rawcpio =>
      a_action a = Upload /\ a_address a = Some address /\ port = a_port a
      /\ file = a_file a /\ rawcpio = a_rawcpio a
  | CmdAskUpload address port file rawcpio =>
      a_action a = AskUpload /\ a_address a = Some address /\ port = a_port a
      /\ file = a_file a /\ rawcpio = a_rawcpio a
  | CmdSend file receiver =>
      a_action a = DoSend /\ a_file a = Some file /\ isfile file = true
      /\ a_receiver a = Some receiver
  end.
Proof.
  exact (dispatch_command Json isfile load_json read_bytes a evs p).
Qed.

Lemma command_follows_the_arguments_witness :
  dispatch unit only_photo unreadable unreadable send_photo
  = ([], inr {| custom_payload := None; raw_payload := None;
                dispatched := CmdSend "photo.jpg" "0" |})
  /\ a_action send_photo = DoSend
  /\ a_file send_photo = Some "photo.jpg"
  /\ only_photo "photo.jpg" = true
  /\ a_receiver send_photo = Some "0".
Proof.
  split; [reflexivity|].
  apply (command_follows_the_arguments unit only_photo unreadable unreadable
           send_photo []
           {| custom_payload := None; raw_payload := None;
              dispatched := CmdSend "photo.jpg" "0" |}).
  reflexivity.
Defined.



(** X24. [send] makes no request to the network unless the receiver was
    resolved: with no report, no match, or the [TypeError] of a stray
    integer token, the peer is never contacted. *)
Theorem unresolved_receiver_no_request
        (Json : Type)
        (client_ask :
           string -> port_value -> option string -> option Json ->
           option string -> outcome bool)
        (client_upload :
           string -> port_value -> option string -> option string ->
           outcome bool)
        (custom : option Json) (raw : option string)
        (file receiver : string) (w : world) :
  (forall info,
      returned (_get_receiver_info (RStr receiver) w) <> Return (Some info)) ->
  List.filter is_network
    (fst (send Json client_ask client_upload custom raw file receiver w)) = []
  /\ snd (send Json client_ask client_upload custom raw file receiver w)
     = match returned (_get_receiver_info (RStr receiver) w) with
       | Raise e => Raise e
       | Return _ => Return tt
       end.
Proof.
  intros H. unfold send.
  destruct (returned (_get_receiver_info (RStr receiver) w)) as [[info|]|e].
  - exfalso. now apply (H info).
  - cbn [fst snd]. split; [apply no_request_from_resolver|reflexivity].
  - cbn [fst snd]. split; [apply no_request_from_resolver|reflexivity].
Qed.

Lemma unresolved_receiver_no_request_witness :
  (forall info,
      returned (_get_receiver_info (RStr "1") (world_with report_bob 100 90))
      <> Return (Some info))
  /\ List.filter is_network
       (fst (send unit accepts uploads_fine None None "photo.jpg" "1"
               (world_with report_bob 100 90))) = []
  /\ snd (send unit accepts uploads_fine None None "photo.jpg" "1"
            (world_with report_bob 100 90))
     = match returned (_get_receiver_info (RStr "1")
                         (world_with report_bob 100 90)) with
       | Raise e => Raise e
       | Return _ => Return tt
       end.
Proof.
  assert (H : forall info,
             returned (_get_receiver_info (RStr "1")
                         (world_with report_bob 100 90))
             <> Return (Some info)) by discriminate.
  split; [exact H|].
  apply (unresolved_receiver_no_request unit accepts uploads_fine None None
           "photo.jpg" "1" (world_with report_bob 100 90)).
  exact H.
Defined.

(** X25. Once the receiver is resolved, [send] asks the endpoint of the
    resolved record exactly once, and uploads, once and to the same
    endpoint, only when the ask was accepted; a declined or failed ask is
    followed by no upload. *)
Theorem send_uploads_only_when_accepted
        (Json : Type)
        (client_ask :
           string -> port_value -> option string -> option Json ->
           option string -> outcome bool)
        (client_upload :
           string -> port_value -> option string -> option string ->
           outcome bool)
        (custom : option Json) (raw : option string)
        (file receiver : string) (w : world) (info : PeerRecord) :
  returned (_get_receiver_info (RStr receiver) w) = Return (Some info) ->
  List.filter is_network
    (fst (send Json client_ask client_upload custom raw file receiver w))
  = NetAsk (pr_address info) (PInt (pr_port info)) (Some file)
      :: match client_ask (pr_address info) (PInt (pr_port info)) (Some file)
                 custom raw with
         | Return true =>
             [NetUpload (pr_address info) (PInt (pr_port info)) (Some file)
                None]
         | _ => []
         end.
Proof.
  intros H. unfold send. rewrite H.
  destruct (client_ask _ _ _ _ _) as [[|]|e]; cbn [fst].
  - destruct (client_upload _ _ _ _) as [[|]|e]; cbn [fst];
      rewrite !List.filter_app, no_request_from_resolver; reflexivity.
  - rewrite !List.filter_app, no_request_from_resolver. reflexivity.
  - rewrite !List.filter_app, no_request_from_resolver. reflexivity.
Qed.

Lemma send_uploads_only_when_accepted_witness :
  returned (_get_receiver_info (RStr "0") (world_with report_bob 100 90))
  = Return (Some bob)
  /\ List.filter is_network
       (fst (send unit declines uploads_fine None None "photo.jpg" "0"
               (world_with report_bob 100 90)))
     = NetAsk (pr_address bob) (PInt (pr_port bob)) (Some "photo.jpg")
         :: match declines (pr_address bob) (PInt (pr_port bob))
                    (Some "photo.jpg") None None with
            | Return true =>
                [NetUpload (pr_address bob) (PInt (pr_port bob))
                   (Some "photo.jpg") None]
            | _ => []
            end.
Proof.
  split; [reflexivity|].
  apply (send_uploads_only_when_accepted unit declines uploads_fine None None
           "photo.jpg" "0" (world_with report_bob 100 90) bob).
  reflexivity.
Defined.

(** X26. [askupload] does not look at the answer to its ask: with
    something to upload, an ask that returns, accepted or declined, is
    followed by the upload. *)
Theorem askupload_uploads_whatever_the_answer
        (Json : Type)
        (client_ask :
           string -> port_value -> option string -> option Json ->
           option string -> outcome bool)
        (client_upload :
           string -> port_value -> option string -> option string ->
           outcome bool)
        (custom : option Json) (raw : option string)
        (file rawcpio : option string) (address : string) (port : port_value)
        (answer : bool) :
  nothing_to_upload file rawcpio = false ->
  client_ask address port file custom raw = Return answer ->
  List.filter is_network
    (fst (_send_ask_and_upload Json client_ask client_upload custom raw
            file rawcpio address port))
  = [NetAsk address port file; NetUpload address port file rawcpio].
Proof.
  intros Hn Ha. unfold _send_ask_and_upload. rewrite Hn, Ha.
  destruct (client_upload _ _ _ _); reflexivity.
Qed.

Lemma askupload_uploads_whatever_the_answer_witness :
  nothing_to_upload (Some "photo.jpg") None = false
  /\ declines "fe80::1" (PInt 8770) (Some "photo.jpg") None None
     = Return false
  /\ List.filter is_network
       (fst (_send_ask_and_upload unit declines uploads_fine None None
               (Some "photo.jpg") None "fe80::1" (PInt 8770)))
     = [NetAsk "fe80::1" (PInt 8770) (Some "photo.jpg");
        NetUpload "fe80::1" (PInt 8770) (Some "photo.jpg") None].
Proof.
  split; [reflexivity|]. split; [reflexivity|].
  apply (askupload_uploads_whatever_the_answer unit declines uploads_fine
           None None (Some "photo.jpg") None "fe80::1" (PInt 8770) false);
    reflexivity.
Defined.

End CliExtras.
